(** * cellar-mpi: a shallow embedding of the C++ MPI wrapper layer

    The library is a thin, header-only layer above the C interface of MPI.
    The embedding keeps the shape of the headers:

    - [exception.hpp]  : [Exception], [check_result]
    - [datatype.hpp]   : [DatatypeTraits]
    - [handle.hpp]     : [Handle], [UniqueHandle]
    - [deref.hpp]      : [Deref]
    - [request.hpp]    : [UniqueRequest]
    - [op.hpp]         : [Op] and the operator trait structs
    - [buffer.hpp]     : [Buffer], [DynBuffer]
    - [comm.hpp]       : [reduce], [reduce_into_root], [all_reduce]
    - [mpi.hpp]        : [wait_all], [wait_some], [wait_some_into]

    The MPI implementation itself is an opaque collaborator.  It is a record
    of constants (the values [mpi.h] gives to the names the headers use) and
    of response functions (what each C entry point answers).  Every call into
    it is logged in the world, so that "no call was made" is a statement about
    the log. *)

From Stdlib Require Import ZArith List String Ascii Bool Lia.
Import ListNotations.
Local Open Scope string_scope.
Local Open Scope list_scope.
Local Open Scope Z_scope.

(* ------------------------------------------------------------------ *)
(** ** Platform integers *)

Definition INT_MAX : Z := 2147483647.
Definition INT_MIN : Z := -2147483648.
Definition SIZE_MAX : Z := 18446744073709551615.

(** [EXIT_FAILURE] of <cstdlib>. *)
Definition EXIT_FAILURE : Z := 1.

(** Conversion of an [int] to [size_t]: reduction modulo 2^64. *)
Definition size_t_of_int (z : Z) : Z := z mod (SIZE_MAX + 1).

(** Addition of two [size_t]. *)
Definition size_t_add (a b : Z) : Z := (a + b) mod (SIZE_MAX + 1).

(* ------------------------------------------------------------------ *)
(** ** The MPI implementation *)

(** The resource kinds that own an [MPI_*_free] entry point. *)
Inductive HandleKind : Type :=
| KComm | KGroup | KRequest | KOp | KKeyval | KWin.

(** The predefined reduction operators [op.hpp] names. *)
Inductive BuiltinOp : Type :=
| MAX | MIN | SUM | PROD | LAND | BAND | LOR | BOR | LXOR | BXOR
| MAXLOC | MINLOC.

(** [MPI_Status], as the three public fields. *)
Record MPI_Status : Type := mkStatus {
  MPI_SOURCE : Z;
  MPI_TAG : Z;
  MPI_ERROR : Z
}.

(** What [MPI_Waitsome] answers: the return code, the request array after
    the call, [outcount], the entries it stored at the front of
    [array_of_indices], and the statuses it stored. *)
Record WaitsomeResult : Type := mkWaitsome {
  ws_code : Z;
  ws_requests : list Z;
  ws_outcount : Z;
  ws_indices : list Z;
  ws_statuses : list MPI_Status
}.

Record Mpi : Type := mkMpi {
  (* constants of mpi.h *)
  MPI_SUCCESS : Z;
  MPI_UNDEFINED : Z;
  MPI_MAX_ERROR_STRING : nat;
  MPI_COMM_WORLD : Z;
  MPI_COMM_SELF : Z;
  MPI_GROUP_EMPTY : Z;
  mpi_null : HandleKind -> Z;   (* MPI_COMM_NULL, ..., MPI_KEYVAL_INVALID *)
  MPI_OP : BuiltinOp -> Z;      (* MPI_MAX, MPI_MIN, ..., MPI_MINLOC *)
  (* entry points: arguments to answer *)
  MPI_Comm_rank : Z -> Z * Z;               (* comm -> code, rank *)
  MPI_Comm_size : Z -> Z * Z;               (* comm -> code, size *)
  MPI_Error_string : Z -> Z * list ascii;   (* code -> code, text written *)
  mpi_free : HandleKind -> Z -> Z * Z;      (* handle -> code, handle after *)
  MPI_Wait : Z -> Z * Z;                    (* request -> code, request after *)
  MPI_Reduce : Z -> Z -> Z -> Z -> Z;       (* count, op, root, comm *)
  MPI_Allreduce : Z -> Z -> Z -> Z;         (* count, op, comm *)
  MPI_Waitall : list Z -> Z * list Z * list MPI_Status;
  MPI_Waitsome : list Z -> WaitsomeResult
}.

(** One entry of the call log. *)
Inductive MpiCall : Type :=
| CallCommRank (comm : Z)
| CallCommSize (comm : Z)
| CallErrorString (code : Z)
| CallAbort (comm code : Z)
| CallFree (k : HandleKind) (h : Z)
| CallWait (request : Z)
| CallReduce (count op root comm : Z)
| CallAllreduce (count op comm : Z)
| CallWaitall (requests : list Z)
| CallWaitsome (requests : list Z).

(* ------------------------------------------------------------------ *)
(** ** Effects: streams, exceptions, termination *)

(** An item inserted in an output stream with [<<]. *)
Inductive Token : Type :=
| Str (s : string)
| Int (z : Z)
| Endl.

(** The exceptions that leave the headers.  [std::out_of_range] and
    [std::length_error] derive from [std::logic_error] in <stdexcept>. *)
Inductive Exn : Type :=
| StdLogicError (what : string)
| StdOutOfRange (what : string)
| StdLengthError (what : string)
| MpiException (errorcode : Z) (what : list ascii).

(** [catch (std::logic_error const&)] matches the exception. *)
Definition is_logic_error (e : Exn) : bool :=
  match e with
  | StdLogicError _ | StdOutOfRange _ | StdLengthError _ => true
  | MpiException _ _ => false
  end.

Record World : Type := mkWorld {
  w_cout : list Token;
  w_cerr : list Token;
  w_calls : list MpiCall
}.

Definition initial_world : World := mkWorld [] [] [].

(** How a call ends. *)
Inductive Outcome (A : Type) : Type :=
| Return (a : A)                 (* normal return *)
| Throw (e : Exn)                (* an exception leaves the function *)
| Exited (code : Z)              (* std::exit *)
| Aborted (comm code : Z)        (* MPI_Abort: the communicator is torn down *)
| Terminated                     (* std::terminate *)
| AssertFailed (what : string)   (* assert of <cassert> *)
| Undefined (what : string).     (* undefined behaviour *)

Arguments Return {A} a.
Arguments Throw {A} e.
Arguments Exited {A} code.
Arguments Aborted {A} comm code.
Arguments Terminated {A}.
Arguments AssertFailed {A} what.
Arguments Undefined {A} what.

(** A computation over a state [S]: it ends in one of the outcomes and
    leaves a state behind in every case. *)
Definition Prog (S A : Type) : Type := S -> Outcome A * S.

(** Most of the library only touches the process-wide [World]. *)
Definition M (A : Type) : Type := Prog World A.

Definition ret {S A} (a : A) : Prog S A := fun s => (Return a, s).

Definition bind {S A B} (m : Prog S A) (k : A -> Prog S B) : Prog S B :=
  fun s =>
    match m s with
    | (Return a, s') => k a s'
    | (Throw e, s') => (Throw e, s')
    | (Exited c, s') => (Exited c, s')
    | (Aborted cm c, s') => (Aborted cm c, s')
    | (Terminated, s') => (Terminated, s')
    | (AssertFailed x, s') => (AssertFailed x, s')
    | (Undefined x, s') => (Undefined x, s')
    end.

Notation "x <- m ;; k" := (bind m (fun x => k))
  (at level 61, m at next level, right associativity).
Notation "m ;;; k" := (bind m (fun _ => k))
  (at level 61, right associativity).

Definition throw {S A} (e : Exn) : Prog S A := fun s => (Throw e, s).
Definition std_exit {S A} (code : Z) : Prog S A := fun s => (Exited code, s).
Definition undefined {S A} (what : string) : Prog S A :=
  fun s => (Undefined what, s).

(** Change of outcome type for an outcome that is not a normal return. *)
Definition coerce {A B} (o : Outcome A) (dflt : Outcome B) : Outcome B :=
  match o with
  | Return _ => dflt
  | Throw e => Throw e
  | Exited c => Exited c
  | Aborted cm c => Aborted cm c
  | Terminated => Terminated
  | AssertFailed x => AssertFailed x
  | Undefined x => Undefined x
  end.

(** Run a [World] computation inside a computation that also carries
    caller memory [S]. *)
Definition lift {S A} (m : M A) : Prog (S * World) A :=
  fun '(s, w) => let '(o, w') := m w in (o, (s, w')).

Definition get_mem {S} : Prog (S * World) S := fun '(s, w) => (Return s, (s, w)).
Definition put_mem {S} (s : S) : Prog (S * World) unit :=
  fun '(_, w) => (Return tt, (s, w)).

(** The world after one more call into the library, and after one more
    line on a stream. *)
Definition logged (w : World) (c : MpiCall) : World :=
  mkWorld (w_cout w) (w_cerr w) (w_calls w ++ [c]).
Definition printed_out (w : World) (line : list Token) : World :=
  mkWorld (w_cout w ++ line) (w_cerr w) (w_calls w).
Definition printed_err (w : World) (line : list Token) : World :=
  mkWorld (w_cout w) (w_cerr w ++ line) (w_calls w).

Definition call (c : MpiCall) : M unit :=
  fun w => (Return tt, logged w c).

Definition cout (line : list Token) : M unit :=
  fun w => (Return tt, printed_out w line).

Definition cerr (line : list Token) : M unit :=
  fun w => (Return tt, printed_err w line).

(** A destructor is [noexcept]: an exception that leaves it ends the
    program through [std::terminate]. *)
Definition noexcept {S A} (m : Prog S A) : Prog S A :=
  fun s =>
    match m s with
    | (Throw _, s') => (Terminated, s')
    | r => r
    end.

(** The predicates the claims speak of. *)
Definition returns_normally {S A} (r : Outcome A * S) : Prop :=
  exists a, fst r = Return a.

Definition throws {S A} (r : Outcome A * S) (e : Exn) : Prop :=
  fst r = Throw e.

Definition aborts_communicator {S A} (r : Outcome A * S) (comm code : Z) : Prop :=
  fst r = Aborted comm code.

Definition is_free_call (c : MpiCall) : bool :=
  match c with CallFree _ _ => true | _ => false end.

(** The [MPI_*_free] calls of a log. *)
Definition free_calls (w : World) : list MpiCall :=
  filter is_free_call (w_calls w).

(* ------------------------------------------------------------------ *)
(** ** handle.hpp: the wrappers *)

(** A handle-traits struct.  Each [destroy] in the headers is
    [check_result(MPI_<Kind>_free(&handle))], so the struct is its kind, its
    null value and its system-handle predicate. *)
Record HandleTraits : Type := mkHandleTraits {
  ht_kind : HandleKind;
  null : Z;
  is_system_handle : Z -> bool
}.

(** [internal::Handle<HandleTraits>]: the non-owning wrapper. *)
Record Handle (HT : HandleTraits) : Type := mkHandle { handle_ : Z }.
Arguments mkHandle {HT} handle_.
Arguments handle_ {HT} h.

(** [internal::UniqueHandle<HandleTraits>]: the owning wrapper. *)
Record UniqueHandle (HT : HandleTraits) : Type := mkUniqueHandle { uhandle_ : Z }.
Arguments mkUniqueHandle {HT} uhandle_.
Arguments uhandle_ {HT} u.

(* ------------------------------------------------------------------ *)
(** ** A concrete MPI implementation for the examples

    The constants are those of the MPICH ABI.  The process is [rank] of
    [size]; every entry point succeeds, except that [MPI_Error_string] only
    knows the codes of [known_errors]. *)

Definition MPI_ERR_ARG : Z := 12.

Definition example_null (k : HandleKind) : Z :=
  match k with
  | KComm => 0x04000000
  | KGroup => 0x08000000
  | KRequest => 0x2c000000
  | KOp => 0x18000000
  | KKeyval => 0x24000000
  | KWin => 0x20000000
  end.

Definition example_op (o : BuiltinOp) : Z :=
  match o with
  | MAX => 0x58000001 | MIN => 0x58000002 | SUM => 0x58000003
  | PROD => 0x58000004 | LAND => 0x58000005 | BAND => 0x58000006
  | LOR => 0x58000007 | BOR => 0x58000008 | LXOR => 0x58000009
  | BXOR => 0x5800000a | MINLOC => 0x5800000b | MAXLOC => 0x5800000c
  end.

Definition example_error_string (known_errors : list (Z * string)) (code : Z)
  : Z * list ascii :=
  match find (fun p => fst p =? code) known_errors with
  | Some p => (0, list_ascii_of_string (snd p))
  | None => (MPI_ERR_ARG, [])
  end.

Definition completed_status : MPI_Status := mkStatus 0 0 0.

(** Every request of the array completes. *)
Definition example_waitall (requests : list Z) : Z * list Z * list MPI_Status :=
  (0, map (fun _ => example_null KRequest) requests,
      map (fun _ => completed_status) requests).

(** The requests that are not null complete; with none of them active the
    answer is [MPI_UNDEFINED]. *)
Fixpoint active_indices (i : Z) (requests : list Z) : list Z :=
  match requests with
  | [] => []
  | r :: rest =>
      if r =? example_null KRequest then active_indices (i + 1) rest
      else i :: active_indices (i + 1) rest
  end.

Definition example_waitsome (requests : list Z) : WaitsomeResult :=
  let done := active_indices 0 requests in
  match done with
  | [] => mkWaitsome 0 requests (-32766) [] []
  | _ => mkWaitsome 0 (map (fun _ => example_null KRequest) requests)
           (Z.of_nat (List.length done)) done
           (map (fun _ => completed_status) done)
  end.

Definition example_mpi (rank size : Z) (known_errors : list (Z * string)) : Mpi :=
  {| MPI_SUCCESS := 0;
     MPI_UNDEFINED := -32766;
     MPI_MAX_ERROR_STRING := 512;
     MPI_COMM_WORLD := 0x44000000;
     MPI_COMM_SELF := 0x44000001;
     MPI_GROUP_EMPTY := 0x48000000;
     mpi_null := example_null;
     MPI_OP := example_op;
     MPI_Comm_rank := fun _ => (0, rank);
     MPI_Comm_size := fun _ => (0, size);
     MPI_Error_string := example_error_string known_errors;
     mpi_free := fun k _ => (0, example_null k);
     MPI_Wait := fun _ => (0, example_null KRequest);
     MPI_Reduce := fun _ _ _ _ => 0;
     MPI_Allreduce := fun _ _ _ => 0;
     MPI_Waitall := example_waitall;
     MPI_Waitsome := example_waitsome |}.

Definition invalid_communicator : string := "Invalid communicator".

(** The library knows error code 5 and no other. *)
Definition mpi_rank0_of_2 : Mpi := example_mpi 0 2 [(5, invalid_communicator)].
Definition mpi_rank1_of_2 : Mpi := example_mpi 1 2 [(5, invalid_communicator)].

(** Two addresses of caller memory. *)
Definition send_addr : Z := 4096.
Definition recv_addr : Z := 8192.

(** A request that is still pending. *)
Definition pending_request : Z := 0x2c000001.

(* ------------------------------------------------------------------ *)
(** ** The rest of the MPI implementation

    The entry points and constants the other functions of the headers
    use.  Calls to them are logged in a log of their own, carried next to
    the state of the computation. *)

(** [GroupRange] of group.hpp: three consecutive [int]s. *)
Record GroupRange : Type := mkGroupRange {
  first : Z;
  last : Z;
  stride : Z
}.

Inductive MoreCall : Type :=
| CallTest (request : Z)
| CallWaitany (requests : list Z)
| CallIprobe (source tag comm : Z)
| CallIsend (count dest tag comm : Z)
| CallIrecv (count source tag comm : Z)
| CallRecv (count source tag comm : Z)
| CallAllgather (comm : Z)
| CallAlltoall (comm : Z)
| CallCommDup (comm : Z)
| CallCommCreate (comm group : Z)
| CallGroupRangeIncl (group : Z) (ranges : list GroupRange)
| CallGroupRangeExcl (group : Z) (ranges : list GroupRange).

Record MpiMore : Type := mkMpiMore {
  (* constants of mpi.h *)
  MPI_ANY_SOURCE : Z;
  MPI_ANY_TAG : Z;
  (* entry points: arguments to answer *)
  MPI_Test : Z -> Z * Z * Z * MPI_Status;   (* request -> code, request after, flag, status *)
  MPI_Waitany : list Z -> Z * list Z * Z * MPI_Status;
                                            (* -> code, requests after, index, status *)
  MPI_Iprobe : Z -> Z -> Z -> Z * Z * MPI_Status;
                                            (* source, tag, comm -> code, flag, status *)
  MPI_Isend : Z -> Z -> Z -> Z -> Z * Z;    (* count, dest, tag, comm -> code, request *)
  MPI_Irecv : Z -> Z -> Z -> Z -> Z * Z;    (* count, source, tag, comm -> code, request *)
  MPI_Recv : Z -> Z -> Z -> Z -> Z * MPI_Status;
                                            (* count, source, tag, comm -> code, status *)
  MPI_Allgather : Z -> Z * list Z;          (* comm -> code, elements stored in recv *)
  MPI_Alltoall : Z -> Z * list Z;           (* comm -> code, elements stored in recv *)
  MPI_Reduce_stored : Z -> Z -> Z -> Z -> list Z;
                                            (* count, op, root, comm -> elements MPI_Reduce
                                               stores in recv *)
  MPI_Allreduce_stored : Z -> Z -> Z -> list Z;
  MPI_Comm_dup : Z -> Z * Z;                (* comm -> code, new communicator *)
  MPI_Comm_create : Z -> Z -> Z * Z;        (* comm, group -> code, new communicator *)
  MPI_Group_range_incl : Z -> list GroupRange -> Z * Z;  (* -> code, new group *)
  MPI_Group_range_excl : Z -> list GroupRange -> Z * Z
}.

(** Run a computation next to the log of the further calls. *)
Definition lift_more {X A} (m : Prog X A) : Prog (list MoreCall * X) A :=
  fun '(l, x) => let '(o, x') := m x in (o, (l, x')).

Definition call_more {X} (c : MoreCall) : Prog (list MoreCall * X) unit :=
  fun '(l, x) => (Return tt, (l ++ [c], x)).

(** A scope that owns a local object with a destructor.  When an exception
    leaves [body] the destructor runs during unwinding, and an exit of the
    destructor other than a return replaces the exception. *)
Definition with_local {S A} (dtor : Prog S unit) (body : Prog S A) : Prog S A :=
  fun s =>
    match body s with
    | (Throw e, s') =>
        let '(o, s'') := noexcept dtor s' in (coerce o (Throw e), s'')
    | r => r
    end.

(** The first request of the array that is not null, from index [i] on. *)
Fixpoint first_active (i : Z) (requests : list Z) : option Z :=
  match requests with
  | [] => None
  | r :: rest =>
      if r =? example_null KRequest then first_active (i + 1) rest else Some i
  end.

Definition empty_status : MPI_Status := mkStatus (-2) (-1) 0.

Definition example_waitany (requests : list Z) : Z * list Z * Z * MPI_Status :=
  match first_active 0 requests with
  | Some i => (0, map (fun _ => example_null KRequest) requests, i, completed_status)
  | None => (0, requests, -32766, empty_status)
  end.

(** A further communicator, a group and a subgroup. *)
Definition duplicate_comm : Z := 0x84000000.
Definition world_group : Z := 0x88000000.
Definition sub_group : Z := 0x88000001.

(** The rest of the example implementation, on a communicator of [size]
    processes.  [flag] is what [MPI_Test] and [MPI_Iprobe] answer; a
    request that is tested with [flag = 0] stays as it is.  [created] is the
    communicator [MPI_Comm_create] gives to this process. *)
Definition example_more (size flag created : Z) : MpiMore :=
  {| MPI_ANY_SOURCE := -2;
     MPI_ANY_TAG := -1;
     MPI_Test := fun request =>
       if flag =? 0 then (0, request, 0, empty_status)
       else (0, example_null KRequest, flag, completed_status);
     MPI_Waitany := example_waitany;
     MPI_Iprobe := fun source tag _ =>
       if flag =? 0 then (0, 0, empty_status) else (0, flag, mkStatus 1 tag 0);
     MPI_Isend := fun _ _ _ _ => (0, pending_request);
     MPI_Irecv := fun _ _ _ _ => (0, pending_request);
     MPI_Recv := fun _ source tag _ => (0, mkStatus source tag 0);
     MPI_Allgather := fun _ => (0, map Z.of_nat (seq 0 (Z.to_nat size)));
     MPI_Alltoall := fun _ => (0, map Z.of_nat (seq 0 (Z.to_nat size)));
     MPI_Reduce_stored := fun count _ _ _ => repeat size (Z.to_nat count);
     MPI_Allreduce_stored := fun count _ _ => repeat size (Z.to_nat count);
     MPI_Comm_dup := fun _ => (0, duplicate_comm);
     MPI_Comm_create := fun _ _ => (0, created);
     MPI_Group_range_incl := fun _ _ => (0, sub_group);
     MPI_Group_range_excl := fun _ _ => (0, sub_group) |}.

Definition more_2 : MpiMore := example_more 2 1 duplicate_comm.

(** The example implementation with requests that stay pending and no
    message to probe. *)
Definition more_pending : MpiMore := example_more 2 0 duplicate_comm.

(** Three requests, the second completed already, and room for three
    indices. *)
Definition three_requests : list Z :=
  [pending_request; example_null KRequest; pending_request].

(** The example implementation on a process that is not in the group
    given to [create]. *)
Definition more_excluded : MpiMore := example_more 2 1 (example_null KComm).

Section WithMpi.

Context (mpi : Mpi).

(** The build either keeps [assert] or compiles it out ([NDEBUG]). *)
Context (NDEBUG : bool).

Definition assert {S} (cond : bool) (what : string) : Prog S unit :=
  if NDEBUG then ret tt
  else if cond then ret tt
  else fun s => (AssertFailed what, s).

(** [MPI_Abort] does not return. *)
Definition mpi_abort {A} (comm code : Z) : M A :=
  fun w => (Aborted comm code, logged w (CallAbort comm code)).

(* ------------------------------------------------------------------ *)
(** ** exception.hpp *)

(** [std::vector<T>::resize(n)]: truncate, or pad with value-initialised
    elements. *)
Definition vector_resize {A} (value : A) (v : list A) (n : nat) : list A :=
  firstn n v ++ repeat value (n - List.length v).

(** [Exception::Exception(int errorcode)].  The buffer has
    [MPI_MAX_ERROR_STRING] characters; the library stores its text at the
    front and reports the length of the text.  Text longer than the buffer
    is a write past its end. *)
Definition Exception_ctor (errorcode : Z) : M Exn :=
  let err_string := vector_resize zero [] (MPI_MAX_ERROR_STRING mpi) in
  call (CallErrorString errorcode) ;;;
  let '(rc, text) := MPI_Error_string mpi errorcode in
  if (MPI_MAX_ERROR_STRING mpi <? List.length text)%nat
  then undefined "MPI_Error_string wrote past err_string"
  else
    let err_string := text ++ skipn (List.length text) err_string in
    let result_length := List.length text in
    (if negb (MPI_SUCCESS mpi =? rc)
     then mpi_abort (MPI_COMM_WORLD mpi) EXIT_FAILURE
     else ret tt) ;;;
    let err_string := vector_resize zero err_string result_length in
    let err_string := err_string ++ [zero] in
    ret (MpiException errorcode err_string).

(** [check_result(int errorcode)]. *)
Definition check_result (errorcode : Z) : M unit :=
  if negb (MPI_SUCCESS mpi =? errorcode)
  then e <- Exception_ctor errorcode ;; throw e
  else ret tt.

Definition Exception_errorcode (e : Exn) : option Z :=
  match e with MpiException c _ => Some c | _ => None end.

Definition Exception_what (e : Exn) : option (list ascii) :=
  match e with MpiException _ s => Some s | _ => None end.

(* ------------------------------------------------------------------ *)
(** ** datatype.hpp *)

(** The value types a template can be instantiated at.  [TSizeT] stands for
    [std::size_t] on a platform where it is a type of its own; where it is a
    typedef of a fixed-width type it is that type.  [TOther] is any type
    without a specialisation. *)
Inductive CType : Type :=
| TBool | TChar
| TInt8 | TInt16 | TInt32 | TInt64
| TUInt8 | TUInt16 | TUInt32 | TUInt64
| TSizeT
| TFloat | TDouble
| TOther (name : string).

(** The wire datatype tags, by name. *)
Inductive MPI_Datatype : Type :=
| MPI_CXX_BOOL | MPI_CHAR
| MPI_INT8_T | MPI_INT16_T | MPI_INT32_T | MPI_INT64_T
| MPI_UINT8_T | MPI_UINT16_T | MPI_UINT32_T | MPI_UINT64_T
| MPI_FLOAT | MPI_DOUBLE.

Record DatatypeTraitsRecord : Type := mkDatatypeTraits {
  is_datatype : bool;
  mpi_datatype : option MPI_Datatype;
  is_c_integer : bool;
  is_floating_point : bool;
  is_logical : bool
}.

(** The primary template. *)
Definition DatatypeTraits_primary : DatatypeTraitsRecord :=
  mkDatatypeTraits false None false false false.

(** A specialisation derives [is_datatype = true] from
    [internal::DatatypeTraitsImpl]. *)
Definition DatatypeTraits_spec (tag : MPI_Datatype) (int fp logical : bool)
  : DatatypeTraitsRecord :=
  mkDatatypeTraits true (Some tag) int fp logical.

(** [sizeof(std::size_t)] of the platform. *)
Context (sizeof_size_t : Z).

Definition DatatypeTraits (T : CType) : DatatypeTraitsRecord :=
  match T with
  | TBool => DatatypeTraits_spec MPI_CXX_BOOL false false true
  | TChar => DatatypeTraits_spec MPI_CHAR false false false
  | TInt8 => DatatypeTraits_spec MPI_INT8_T true false false
  | TInt16 => DatatypeTraits_spec MPI_INT16_T true false false
  | TInt32 => DatatypeTraits_spec MPI_INT32_T true false false
  | TInt64 => DatatypeTraits_spec MPI_INT64_T true false false
  | TUInt8 => DatatypeTraits_spec MPI_UINT8_T true false false
  | TUInt16 => DatatypeTraits_spec MPI_UINT16_T true false false
  | TUInt32 => DatatypeTraits_spec MPI_UINT32_T true false false
  | TUInt64 => DatatypeTraits_spec MPI_UINT64_T true false false
  | TSizeT =>
      if sizeof_size_t =? 4 then DatatypeTraits_spec MPI_UINT32_T true false false
      else if sizeof_size_t =? 8 then DatatypeTraits_spec MPI_UINT64_T true false false
      else DatatypeTraits_primary
  | TFloat => DatatypeTraits_spec MPI_FLOAT false true false
  | TDouble => DatatypeTraits_spec MPI_DOUBLE false true false
  | TOther _ => DatatypeTraits_primary
  end.

Definition is_datatype_v (T : CType) : bool := is_datatype (DatatypeTraits T).

(* ------------------------------------------------------------------ *)
(** ** op.hpp: operator traits *)

(** [is_applicable<T>] is a variable template guarded by
    [std::enable_if_t<is_datatype_v<T>>]: it has no value ([None]) at a type
    that is not a datatype. *)
Record OpTraits : Type := mkOpTraits {
  is_applicable : CType -> option bool;
  is_user_defined : bool
}.

Definition enable_if_datatype (T : CType) (value : bool) : option bool :=
  if is_datatype_v T then Some value else None.

Definition comparison_op_traits : OpTraits :=
  mkOpTraits
    (fun T => enable_if_datatype T
       (is_c_integer (DatatypeTraits T) || is_floating_point (DatatypeTraits T)))
    false.

Definition accumulate_op_traits : OpTraits :=
  mkOpTraits
    (fun T => enable_if_datatype T
       (is_c_integer (DatatypeTraits T) || is_floating_point (DatatypeTraits T)))
    false.

Definition logical_op_traits : OpTraits :=
  mkOpTraits
    (fun T => enable_if_datatype T
       (is_c_integer (DatatypeTraits T) || is_logical (DatatypeTraits T)))
    false.

Definition bitwise_op_traits : OpTraits :=
  mkOpTraits
    (fun T => enable_if_datatype T (is_c_integer (DatatypeTraits T)))
    false.

(** [Op<OpTraits>::is_applicable<T>]. *)
Definition Op_is_applicable (OT : OpTraits) (T : CType) : option bool :=
  is_applicable OT T.

(** The operator is accepted at [T]: the [static_assert] of [reduce] and
    [all_reduce] holds. *)
Definition accepts (OT : OpTraits) (T : CType) : bool :=
  match Op_is_applicable OT T with
  | Some true => true
  | _ => false
  end.

(* ------------------------------------------------------------------ *)
(** ** handle.hpp *)

(** [HandleTraits::destroy(handle_t &handle)]: the value left in [handle]. *)
Definition destroy (HT : HandleTraits) (handle : Z) : M Z :=
  call (CallFree (ht_kind HT) handle) ;;;
  let '(rc, handle') := mpi_free mpi (ht_kind HT) handle in
  check_result rc ;;;
  ret handle'.

Definition CommHandleTraits : HandleTraits :=
  mkHandleTraits KComm (mpi_null mpi KComm)
    (fun handle => (handle =? MPI_COMM_WORLD mpi) || (handle =? MPI_COMM_SELF mpi)).

Definition GroupHandleTraits : HandleTraits :=
  mkHandleTraits KGroup (mpi_null mpi KGroup)
    (fun handle => handle =? MPI_GROUP_EMPTY mpi).

Definition RequestHandleTraits : HandleTraits :=
  mkHandleTraits KRequest (mpi_null mpi KRequest) (fun _ => false).

Definition KeyvalHandleTraits : HandleTraits :=
  mkHandleTraits KKeyval (mpi_null mpi KKeyval) (fun _ => false).

Definition WinHandleTraits : HandleTraits :=
  mkHandleTraits KWin (mpi_null mpi KWin) (fun _ => false).

Definition OpHandleTraits : HandleTraits :=
  mkHandleTraits KOp (mpi_null mpi KOp)
    (fun handle =>
       (handle =? MPI_OP mpi MAX) || (handle =? MPI_OP mpi MIN) ||
       (handle =? MPI_OP mpi SUM) || (handle =? MPI_OP mpi PROD) ||
       (handle =? MPI_OP mpi LAND) || (handle =? MPI_OP mpi BAND) ||
       (handle =? MPI_OP mpi LOR) || (handle =? MPI_OP mpi BOR) ||
       (handle =? MPI_OP mpi LXOR) || (handle =? MPI_OP mpi BXOR) ||
       (handle =? MPI_OP mpi MAXLOC) || (handle =? MPI_OP mpi MINLOC)).

Definition Handle_is_null {HT} (this : Handle HT) : bool :=
  handle_ this =? null HT.
Definition Handle_bool {HT} (this : Handle HT) : bool :=
  negb (Handle_is_null this).
Definition Handle_get_raw {HT} (this : Handle HT) : Z := handle_ this.
Definition Handle_reset {HT} (this : Handle HT) : Handle HT :=
  mkHandle (null HT).

(** [Handle::free()]. *)
Definition Handle_free {HT} (this : Handle HT) : M (Handle HT) :=
  this <- (if Handle_bool this
           then h <- destroy HT (handle_ this) ;; ret (mkHandle h)
           else ret this) ;;
  assert (Handle_is_null this) "is_null()" ;;;
  ret this.

Definition UniqueHandle_is_null {HT} (this : UniqueHandle HT) : bool :=
  uhandle_ this =? null HT.
Definition UniqueHandle_bool {HT} (this : UniqueHandle HT) : bool :=
  negb (UniqueHandle_is_null this).
Definition UniqueHandle_get_raw {HT} (this : UniqueHandle HT) : Z :=
  uhandle_ this.

(** [std::swap] on two handle values. *)
Definition swap (a b : Z) : Z * Z := (b, a).

(** [UniqueHandle::into_raw()]: the value returned and the wrapper after. *)
Definition into_raw {HT} (this : UniqueHandle HT) : M (Z * UniqueHandle HT) :=
  let handle := null HT in
  let '(handle, this_handle) := swap handle (uhandle_ this) in
  ret (handle, mkUniqueHandle this_handle).

(** [UniqueHandle::reset()]. *)
Definition UniqueHandle_reset {HT} (this : UniqueHandle HT) : M (UniqueHandle HT) :=
  assert (negb (is_system_handle HT (uhandle_ this)))
         "!HandleTraits::is_system_handle(handle_)" ;;;
  this <- (if UniqueHandle_bool this
           then h <- destroy HT (uhandle_ this) ;;
                assert (h =? null HT) "handle_ == HandleTraits::null()" ;;;
                ret (mkUniqueHandle h)
           else ret this) ;;
  assert (UniqueHandle_is_null this) "is_null()" ;;;
  ret this.

(** [UniqueHandle::~UniqueHandle()]. *)
Definition UniqueHandle_dtor {HT} (this : UniqueHandle HT) : M unit :=
  noexcept (UniqueHandle_reset this ;;; ret tt).

(** [UniqueHandle::UniqueHandle(UniqueHandle &&other)]: the new wrapper and
    [other] after. *)
Definition UniqueHandle_move_ctor {HT} (other : UniqueHandle HT)
  : UniqueHandle HT * UniqueHandle HT :=
  let '(h, o) := swap (null HT) (uhandle_ other) in
  (mkUniqueHandle h, mkUniqueHandle o).

(** [UniqueHandle::operator=(UniqueHandle &&other)]: [*this] and [other]
    after. *)
Definition UniqueHandle_move_assign {HT} (this other : UniqueHandle HT)
  : M (UniqueHandle HT * UniqueHandle HT) :=
  this <- UniqueHandle_reset this ;;
  let '(h, o) := swap (uhandle_ this) (uhandle_ other) in
  ret (mkUniqueHandle h, mkUniqueHandle o).

(* ------------------------------------------------------------------ *)
(** ** deref.hpp *)

(** What [trait::Deref<From, To>] asks of its parameters: [From::get_raw]
    and [To::from_handle]. *)
Class Deref (From To : Type) : Type := mkDeref {
  deref_get_raw : From -> Z;
  deref_from_handle : Z -> To
}.

(** [Deref::deref()]: the reference produced and [*this] after. *)
Definition deref {From To} `{Deref From To} (this : From) : M (To * From) :=
  ret (deref_from_handle (deref_get_raw this), this).

(** [Comm::from_handle], [Group::from_handle], [Request::from_handle], ...:
    each is the private constructor, which is [Handle(handle)]. *)
Definition Handle_from_handle {HT} (handle : Z) : Handle HT := mkHandle handle.
Definition UniqueHandle_from_handle {HT} (handle : Z) : UniqueHandle HT :=
  mkUniqueHandle handle.

(** [UniqueComm : CommImpl<UniqueComm> : Deref<UniqueComm, Comm>], and the
    same for groups, requests, key values and windows. *)
#[export] Instance Deref_Unique (HT : HandleTraits)
  : Deref (UniqueHandle HT) (Handle HT) :=
  mkDeref _ _ UniqueHandle_get_raw Handle_from_handle.

(** [Comm : CommImpl<Comm> : Deref<Comm, Comm>], [DerefSelf]. *)
#[export] Instance Deref_Self (HT : HandleTraits)
  : Deref (Handle HT) (Handle HT) :=
  mkDeref _ _ Handle_get_raw Handle_from_handle.

Definition Comm : Type := Handle CommHandleTraits.
Definition UniqueComm : Type := UniqueHandle CommHandleTraits.
Definition Request : Type := Handle RequestHandleTraits.
Definition UniqueRequest : Type := UniqueHandle RequestHandleTraits.

(** [Comm::world()]. *)
Definition Comm_world : Comm := Handle_from_handle (MPI_COMM_WORLD mpi).

(* ------------------------------------------------------------------ *)
(** ** request.hpp: UniqueRequest *)

(** [RequestImpl::wait()] on an owning request: the request after. *)
Definition UniqueRequest_wait (this : UniqueRequest) : M UniqueRequest :=
  call (CallWait (uhandle_ this)) ;;;
  let '(rc, request) := MPI_Wait mpi (uhandle_ this) in
  check_result rc ;;;
  ret (mkUniqueHandle request : UniqueRequest).

(** [RequestImpl::free()] on an owning request: the request after. *)
Definition UniqueRequest_free (this : UniqueRequest) : M UniqueRequest :=
  if negb (UniqueHandle_get_raw this =? mpi_null mpi KRequest)
  then
    call (CallFree KRequest (uhandle_ this)) ;;;
    let '(rc, request) := mpi_free mpi KRequest (uhandle_ this) in
    check_result rc ;;;
    ret (mkUniqueHandle request : UniqueRequest)
  else ret this.

Definition requests_must_be_completed : string :=
  "Requests must be completed before they're dropped!".

(** [UniqueRequest::check_null()]. *)
Definition check_null (this : UniqueRequest) : M unit :=
  if negb (UniqueHandle_is_null this)
  then cout [Str requests_must_be_completed; Endl] ;;;
       std_exit EXIT_FAILURE
  else ret tt.

(** [UniqueRequest::~UniqueRequest()], followed by the destructor of the
    base class. *)
Definition UniqueRequest_dtor (this : UniqueRequest) : M unit :=
  noexcept (check_null this) ;;;
  UniqueHandle_dtor this.

(** [UniqueRequest::operator=(UniqueRequest &&other)]. *)
Definition UniqueRequest_move_assign (this other : UniqueRequest)
  : M (UniqueRequest * UniqueRequest) :=
  check_null this ;;;
  UniqueHandle_move_assign this other.

(* ------------------------------------------------------------------ *)
(** ** op.hpp: Op *)

Definition Op (OT : OpTraits) : Type := UniqueHandle OpHandleTraits.

(** [Op::from_system_handle], present when the traits are not user-defined. *)
Definition from_system_handle (OT : OpTraits) (op : Z) : option (Op OT) :=
  if negb (is_user_defined OT) then Some (mkUniqueHandle op) else None.

(** The body of [Op::~Op()]: the wrapper it leaves to the base class. *)
Definition Op_dtor_body (OT : OpTraits) (this : Op OT) : M (Op OT) :=
  if negb (is_user_defined OT)
  then r <- into_raw this ;; ret (snd r)
  else ret this.

(** [Op::~Op()], followed by [~UniqueHandle()]. *)
Definition Op_dtor (OT : OpTraits) (this : Op OT) : M unit :=
  this <- noexcept (Op_dtor_body OT this) ;;
  @UniqueHandle_dtor OpHandleTraits this.

Definition Op_op {OT} (this : Op OT) : Z := UniqueHandle_get_raw this.

Definition op_max := from_system_handle comparison_op_traits (MPI_OP mpi MAX).
Definition op_min := from_system_handle comparison_op_traits (MPI_OP mpi MIN).
Definition op_sum := from_system_handle accumulate_op_traits (MPI_OP mpi SUM).
Definition op_product := from_system_handle accumulate_op_traits (MPI_OP mpi PROD).
Definition logical_and := from_system_handle logical_op_traits (MPI_OP mpi LAND).
Definition logical_or := from_system_handle logical_op_traits (MPI_OP mpi LOR).
Definition logical_xor := from_system_handle logical_op_traits (MPI_OP mpi LXOR).
Definition bitwise_and := from_system_handle bitwise_op_traits (MPI_OP mpi BAND).
Definition bitwise_or := from_system_handle bitwise_op_traits (MPI_OP mpi BOR).
Definition bitwise_xor := from_system_handle bitwise_op_traits (MPI_OP mpi BXOR).

(* ------------------------------------------------------------------ *)
(** ** buffer.hpp *)

(** [std::span<T>]: where it starts, how many elements, and the wire tag
    of [T].  [size] is a [size_t]. *)
Record span : Type := mkSpan {
  span_data : Z;
  span_size : Z;
  span_datatype : MPI_Datatype
}.

(** [Buffer<T>::size_int()]. *)
Definition Buffer_size_int (data_ : span) : M Z :=
  if span_size data_ >? INT_MAX
  then throw (StdOutOfRange "Buffer::size_int: Tried to send too large buffer.")
  else ret (span_size data_).

Record DynBuffer : Type := mkDynBuffer {
  data_ : Z;
  count_ : Z;
  datatype_ : MPI_Datatype
}.

(** [DynBuffer::DynBuffer(Buf const &buffer)] on a [Buffer<T>]. *)
Definition DynBuffer_of_Buffer (buffer : span) : M DynBuffer :=
  count <- Buffer_size_int buffer ;;
  ret (mkDynBuffer (span_data buffer) count (span_datatype buffer)).

Definition DynBuffer_size (b : DynBuffer) : Z := size_t_of_int (count_ b).
Definition DynBuffer_size_int (b : DynBuffer) : Z := count_ b.

(* ------------------------------------------------------------------ *)
(** ** comm.hpp *)

(** [CommImpl::rank()]. *)
Definition rank (comm : Z) : M Z :=
  call (CallCommRank comm) ;;;
  let '(rc, rank) := MPI_Comm_rank mpi comm in
  check_result rc ;;;
  ret rank.

(** [CommImpl::size()]. *)
Definition size (comm : Z) : M Z :=
  call (CallCommSize comm) ;;;
  let '(rc, size) := MPI_Comm_size mpi comm in
  check_result rc ;;;
  ret size.

(** [CommImpl::abort(int errorcode)].  [MPI_Abort] does not return, so the
    [std::exit] after it is never reached. *)
Definition abort {A} (comm errorcode : Z) : M A :=
  mpi_abort comm errorcode.

(** A pointer; [nullptr] is 0. *)
Definition nullptr : Z := 0.
Definition is_nullptr (p : Z) : bool := p =? nullptr.

(** [CommImpl::reduce(Op const&, rank_t, T const[], size_t, T[], size_t)].
    The [static_assert] on [is_applicable<T>] is settled at compile time;
    [op] is [op.op()]. *)
Definition reduce (comm op root send send_count recv recv_count : Z) : M unit :=
  r <- rank comm ;;
  (if root =? r then
     (if is_nullptr recv then
        r <- rank comm ;;
        cerr [Int r;
              Str ": The root rank must supply a receive buffer to Comm::gather";
              Endl] ;;;
        abort comm EXIT_FAILURE
      else ret tt) ;;;
     (if recv_count <? send_count then
        (if is_nullptr recv then
           r <- rank comm ;;
           n <- size comm ;;
           cerr [Int r; Str ": recv_count ("; Int recv_count;
                 Str ") is not large enough to receive "; Int n;
                 Str " buffers of size "; Int send_count; Endl] ;;;
           abort comm EXIT_FAILURE
         else ret tt)
      else ret tt)
   else ret tt) ;;;
  (if send_count >? INT_MAX
   then throw (StdOutOfRange "send array is too large")
   else ret tt) ;;;
  call (CallReduce send_count op root comm) ;;;
  check_result (MPI_Reduce mpi send_count op root comm).

(** [CommImpl::reduce_into_root(Op const&, rank_t, T const[], size_t, T[], size_t)]. *)
Definition reduce_into_root (comm op root send send_count recv recv_count : Z)
  : M unit :=
  r <- rank comm ;;
  (if negb (root =? r) then
     r <- rank comm ;;
     cerr [Int r;
           Str ": Comm::reduce_into_root called from a rank other than the root (";
           Int root;
           Str ") - reduce_into_root should only be used on root rank, or you should call reduce with the receive buffer.";
           Endl] ;;;
     abort comm EXIT_FAILURE
   else ret tt) ;;;
  reduce comm op root send send_count recv recv_count.

(** [CommImpl::all_reduce(Op const&, T const[], size_t, T[], size_t)]. *)
Definition all_reduce (comm op send send_count recv recv_count : Z) : M unit :=
  (if send_count >? INT_MAX
   then throw (StdOutOfRange "send array is too large")
   else ret tt) ;;;
  (if recv_count <? send_count then
     r <- rank comm ;;
     cerr [Int r; Str ": The recv buffer, of size "; Int recv_count;
           Str ", must be at least of size "; Int send_count; Endl] ;;;
     abort comm EXIT_FAILURE
   else ret tt) ;;;
  call (CallAllreduce send_count op comm) ;;;
  check_result (MPI_Allreduce mpi send_count op comm).

(* ------------------------------------------------------------------ *)
(** ** mpi.hpp: multiple completions *)

(** [mpi::Status] has the layout of [MPI_Status]. *)
Definition Status : Type := MPI_Status.

(** The caller memory the spans of a batch wait view: the request array,
    the index array and the status array. *)
Record WaitBuffers : Type := mkWaitBuffers {
  wb_requests : list Z;
  wb_indices : list Z;
  wb_statuses : list Status
}.

(** The library stores [written] at the front of [buf]; storing more than
    [buf] holds is a write past its end. *)
Definition store {A} (buf written : list A) : option (list A) :=
  if (List.length written <=? List.length buf)%nat
  then Some (written ++ skipn (List.length written) buf)
  else None.

Definition store_or_undefined {S A} (buf written : list A) : Prog S (list A) :=
  match store buf written with
  | Some buf' => ret buf'
  | None => undefined "the library wrote past the end of a span"
  end.

Definition span_length {A} (l : list A) : Z := Z.of_nat (List.length l).

(** [wait_all(std::span<UniqueRequest>, std::span<Status>)]. *)
Definition wait_all : Prog (WaitBuffers * World) unit :=
  b <- get_mem ;;
  let requests := wb_requests b in
  let statuses := wb_statuses b in
  (if span_length requests >? INT_MAX
   then throw (StdOutOfRange "requests array is too large")
   else ret tt) ;;;
  (if span_length statuses <? span_length requests
   then throw (StdLogicError
          "statuses array must be large enough to hold a status for each request")
   else ret tt) ;;;
  lift (call (CallWaitall requests)) ;;;
  let '(rc, requests', statuses') := MPI_Waitall mpi requests in
  requests' <- store_or_undefined requests requests' ;;
  statuses' <- store_or_undefined statuses statuses' ;;
  put_mem (mkWaitBuffers requests' (wb_indices b) statuses') ;;;
  lift (check_result rc).

(** [wait_all(std::span<UniqueRequest>)]. *)
Definition wait_all_ignore : Prog (WaitBuffers * World) unit :=
  b <- get_mem ;;
  let requests := wb_requests b in
  (if span_length requests >? INT_MAX
   then throw (StdOutOfRange "requests array is too large")
   else ret tt) ;;;
  lift (call (CallWaitall requests)) ;;;
  let '(rc, requests', _) := MPI_Waitall mpi requests in
  requests' <- store_or_undefined requests requests' ;;
  put_mem (mkWaitBuffers requests' (wb_indices b) (wb_statuses b)) ;;;
  lift (check_result rc).

(** [wait_some(std::span<UniqueRequest>, std::span<int>,
    std::optional<std::span<Status>>)]; [with_statuses] tells whether the
    optional span is given. *)
Definition wait_some (with_statuses : bool) : Prog (WaitBuffers * World) Z :=
  b <- get_mem ;;
  let requests := wb_requests b in
  let indices := wb_indices b in
  let statuses := wb_statuses b in
  (if span_length requests >? INT_MAX
   then throw (StdOutOfRange "requests array is too large")
   else ret tt) ;;;
  (if span_length indices <? span_length requests
   then throw (StdLogicError
          "indices array must be large enough to hold an index for each request")
   else ret tt) ;;;
  (if with_statuses then
     if span_length statuses <? span_length requests
     then throw (StdLogicError
            "statuses array must be large enough to hold a status for each request")
     else ret tt
   else ret tt) ;;;
  lift (call (CallWaitsome requests)) ;;;
  let res := MPI_Waitsome mpi requests in
  requests' <- store_or_undefined requests (ws_requests res) ;;
  indices' <- store_or_undefined indices (ws_indices res) ;;
  statuses' <- (if with_statuses
                then store_or_undefined statuses (ws_statuses res)
                else ret statuses) ;;
  put_mem (mkWaitBuffers requests' indices' statuses') ;;;
  lift (check_result (ws_code res)) ;;;
  let num_completed := ws_outcount res in
  if num_completed =? MPI_UNDEFINED mpi
  then throw (StdLogicError
         "mpi::wait_some should only be called when there are still completed requests")
  else ret num_completed.

(** [std::vector<int>::max_size()]. *)
Definition vector_max_size : Z := 2 ^ 61 - 1.

(** [std::vector<int>::resize(n)], [n] a [size_t]. *)
Definition vector_int_resize {S} (v : list Z) (n : Z) : Prog S (list Z) :=
  if n >? vector_max_size
  then throw (StdLengthError "vector::_M_default_append")
  else ret (vector_resize 0 v (Z.to_nat n)).

(** [wait_some_into(std::span<UniqueRequest>, std::vector<int> &)].  The
    vector is [wb_indices]; [wait_some] is given the part of it that starts
    at [original_indices_size], and what it stores there lands in the
    vector. *)
Definition wait_some_into : Prog (WaitBuffers * World) unit :=
  b <- get_mem ;;
  let requests := wb_requests b in
  let original_indices_size := span_length (wb_indices b) in
  indices <- vector_int_resize (wb_indices b)
               (size_t_add original_indices_size (span_length requests)) ;;
  put_mem (mkWaitBuffers requests indices (wb_statuses b)) ;;;
  (* std::span<int>{indices}.subspan(original_indices_size) *)
  let kept := firstn (Z.to_nat original_indices_size) indices in
  let view := skipn (Z.to_nat original_indices_size) indices in
  fun '(_, w) =>
    let '(o, (b', w')) :=
      wait_some false (mkWaitBuffers requests view (wb_statuses b), w) in
    let indices := kept ++ wb_indices b' in
    let mem := mkWaitBuffers (wb_requests b') indices (wb_statuses b') in
    match o with
    | Return num_completed =>
        (indices <- vector_int_resize indices
                      (size_t_add original_indices_size (size_t_of_int num_completed)) ;;
         put_mem (mkWaitBuffers (wb_requests b') indices (wb_statuses b')))
          (mem, w')
    | _ => (coerce o (Return tt), (mem, w'))
    end.


(* ------------------------------------------------------------------ *)
(** ** The other functions of the headers *)

Context (more : MpiMore).

(** Code that reaches the further entry points. *)
Definition M2 (A : Type) : Type := Prog (list MoreCall * World) A.

(** *** status.hpp *)

(** [Status::Status()]. *)
Definition Status_default : Status :=
  mkStatus (MPI_ANY_SOURCE more) (MPI_ANY_TAG more) (MPI_SUCCESS mpi).

(** *** request.hpp: the other members of RequestImpl, on an owning request *)

(** [RequestImpl::test()]: the answer and the request after. *)
Definition UniqueRequest_test (this : UniqueRequest) : M2 (bool * UniqueRequest) :=
  call_more (CallTest (uhandle_ this)) ;;;
  let '(rc, request, flag, _) := MPI_Test more (uhandle_ this) in
  lift_more (check_result rc) ;;;
  ret (negb (flag =? 0), mkUniqueHandle request : UniqueRequest).

(** [RequestImpl::test_with_status(Status &status)]: the answer, the request
    after and [status] after. *)
Definition UniqueRequest_test_with_status (this : UniqueRequest) (status : Status)
  : M2 (bool * UniqueRequest * Status) :=
  call_more (CallTest (uhandle_ this)) ;;;
  let '(rc, request, flag, mpistatus) := MPI_Test more (uhandle_ this) in
  lift_more (check_result rc) ;;;
  if negb (flag =? 0)
  then ret (true, mkUniqueHandle request : UniqueRequest, mpistatus)
  else ret (false, mkUniqueHandle request : UniqueRequest, status).

(** *** handle.hpp: move assignment between wrappers in memory *)

(** The [handle_] members of the owning wrappers of one traits class, by the
    address of the wrapper. *)
Definition Wrappers : Type := nat -> Z.

Definition wrapper_store (m : Wrappers) (address : nat) (handle : Z) : Wrappers :=
  fun a => if Nat.eqb a address then handle else m a.

(** [HandleTraits::destroy(handle_)] on the member at [address]: the library
    writes the handle through the reference, then its result is checked. *)
Definition destroy_at (HT : HandleTraits) (address : nat)
  : Prog (Wrappers * World) unit :=
  m <- get_mem ;;
  lift (call (CallFree (ht_kind HT) (m address))) ;;;
  let '(rc, handle') := mpi_free mpi (ht_kind HT) (m address) in
  put_mem (wrapper_store m address handle') ;;;
  lift (check_result rc).

(** [UniqueHandle::reset()] on the wrapper at [this]. *)
Definition UniqueHandle_reset_at (HT : HandleTraits) (this : nat)
  : Prog (Wrappers * World) unit :=
  m <- get_mem ;;
  assert (negb (is_system_handle HT (m this)))
         "!HandleTraits::is_system_handle(handle_)" ;;;
  (if negb (m this =? null HT)
   then destroy_at HT this ;;;
        m <- get_mem ;;
        assert (m this =? null HT) "handle_ == HandleTraits::null()"
   else ret tt) ;;;
  m <- get_mem ;;
  assert (m this =? null HT) "is_null()".

(** [std::swap(a, b)] on the members at two addresses, [tmp = a; a = b;
    b = tmp]; the two addresses may be one. *)
Definition swap_at (a b : nat) : Prog (Wrappers * World) unit :=
  m <- get_mem ;;
  let tmp := m a in
  put_mem (wrapper_store m a (m b)) ;;;
  m <- get_mem ;;
  put_mem (wrapper_store m b tmp).

(** [UniqueHandle::operator=(UniqueHandle &&other)] on the wrapper at [this],
    with the wrapper at [other] as argument; [a = std::move(a)] is the call
    with the same address twice. *)
Definition UniqueHandle_move_assign_at (HT : HandleTraits) (this other : nat)
  : Prog (Wrappers * World) unit :=
  UniqueHandle_reset_at HT this ;;;
  swap_at this other.

(** *** op.hpp: the defaulted move assignment of Op *)

(** [Op &operator=(Op &&) = default]: the move assignment of the base
    class. *)
Definition Op_move_assign (OT : OpTraits) (this other : Op OT)
  : M (Op OT * Op OT) :=
  @UniqueHandle_move_assign OpHandleTraits this other.

(** *** <vector> *)

(** [std::vector<T>::max_size()] of libstdc++, for elements of [sizeof_T]
    bytes. *)
Definition vector_max_size_of (sizeof_T : Z) : Z := (2 ^ 63 - 1) / sizeof_T.

(** [std::vector<T> v(n)], [n] a [size_t]: [n] value-initialised elements. *)
Definition vector_create {S} (sizeof_T n : Z) : Prog S (list Z) :=
  if n >? vector_max_size_of sizeof_T
  then throw (StdLengthError "cannot create std::vector larger than max_size()")
  else ret (repeat 0 (Z.to_nat n)).

(** *** comm.hpp: communicators derived from a communicator *)

(** [CommImpl::dup()]. *)
Definition dup (comm : Z) : M2 UniqueComm :=
  call_more (CallCommDup comm) ;;;
  let '(rc, c) := MPI_Comm_dup more comm in
  with_local (lift_more (UniqueHandle_dtor (mkUniqueHandle c : UniqueComm)))
    (lift_more (check_result rc)) ;;;
  ret (mkUniqueHandle c : UniqueComm).

(** [CommImpl::create(trait::Deref<From, Group> const &group)]; [group] is
    [group.deref()]. *)
Definition create (comm group : Z) : M2 UniqueComm :=
  call_more (CallCommCreate comm group) ;;;
  let '(rc, c) := MPI_Comm_create more comm group in
  with_local (lift_more (UniqueHandle_dtor (mkUniqueHandle c : UniqueComm)))
    (lift_more (check_result rc)) ;;;
  ret (mkUniqueHandle c : UniqueComm).

Definition UniqueGroup : Type := UniqueHandle GroupHandleTraits.

(** *** comm.hpp: all_gather and all_to_all *)

(** [all_gather(T const &send, std::span<T> recv)]. *)
Definition all_gather (comm send : Z) (recv : span) : M2 unit :=
  n <- lift_more (size comm) ;;
  (if span_size recv <? size_t_of_int n then
     r <- lift_more (rank comm) ;;
     n <- lift_more (size comm) ;;
     lift_more (cerr [Int r; Str ": The recv buffer, of size "; Int (span_size recv);
                      Str ", was smaller than the Comm::size() of "; Int n; Endl]) ;;;
     lift_more (abort comm EXIT_FAILURE)
   else ret tt) ;;;
  call_more (CallAllgather comm) ;;;
  lift_more (check_result (fst (MPI_Allgather more comm))).

(** [std::vector<T> all_gather(T const &send)]. *)
Definition all_gather_vector (comm send storage : Z) (T : MPI_Datatype) (sizeof_T : Z)
  : M2 (list Z) :=
  n <- lift_more (size comm) ;;
  results <- vector_create sizeof_T (size_t_of_int n) ;;
  all_gather comm send (mkSpan storage (span_length results) T) ;;;
  store_or_undefined results (snd (MPI_Allgather more comm)).

(** [all_to_all(DynBuffer send, DynBuffer recv)]. *)
Definition all_to_all (comm : Z) (send recv : DynBuffer) : M2 unit :=
  n <- lift_more (size comm) ;;
  (if DynBuffer_size send <? size_t_of_int n then
     r <- lift_more (rank comm) ;;
     n <- lift_more (size comm) ;;
     lift_more (cerr [Int r; Str ": The send buffer, of size "; Int (DynBuffer_size send);
                      Str ", must be at least of size "; Int n; Endl]) ;;;
     lift_more (abort comm EXIT_FAILURE)
   else ret tt) ;;;
  n <- lift_more (size comm) ;;
  (if DynBuffer_size recv <? size_t_of_int n then
     r <- lift_more (rank comm) ;;
     n <- lift_more (size comm) ;;
     lift_more (cerr [Int r; Str ": The recv buffer, of size "; Int (DynBuffer_size recv);
                      Str ", must be at least of size "; Int n; Endl]) ;;;
     lift_more (abort comm EXIT_FAILURE)
   else ret tt) ;;;
  call_more (CallAlltoall comm) ;;;
  lift_more (check_result (fst (MPI_Alltoall more comm))).

(** *** comm.hpp: the other overloads of reduce, reduce_into_root, all_reduce *)

(** [reduce(Op const &op, rank_t root, T const &send)]: the defaults
    [recv = nullptr] and [recv_count = 0]. *)
Definition reduce_value (comm op root send : Z) : M unit :=
  reduce comm op root send 1 nullptr 0.

(** [reduce(Op const &op, rank_t root, std::vector<T> const &send)]. *)
Definition reduce_vector (comm op root : Z) (send_data send_size : Z) : M unit :=
  reduce comm op root send_data send_size nullptr 0.

(** Reading a local that may not have been written. *)
Definition read_stored (stored : list Z) : M Z :=
  match stored with
  | v :: _ => ret v
  | [] => undefined "read of an uninitialised object"
  end.

(** [T reduce_into_root(Op const &op, rank_t root, T send)]; [send] and
    [recv] are the addresses of the parameter and of the local. *)
Definition reduce_into_root_value (comm op root send recv : Z) : M Z :=
  reduce_into_root comm op root send 1 recv 1 ;;;
  read_stored (MPI_Reduce_stored more 1 op root comm).

(** [T all_reduce(Op const &op, T send)]. *)
Definition all_reduce_value (comm op send recv : Z) : M Z :=
  all_reduce comm op send 1 recv 1 ;;;
  read_stored (MPI_Allreduce_stored more 1 op comm).

(** [std::vector<T> all_reduce(Op const &op, std::vector<T> const &send)]. *)
Definition all_reduce_vector (comm op : Z) (send_data send_size storage sizeof_T : Z)
  : M (list Z) :=
  recv <- vector_create sizeof_T send_size ;;
  all_reduce comm op send_data send_size storage (span_length recv) ;;;
  store_or_undefined recv (MPI_Allreduce_stored more send_size op comm).

(** *** comm.hpp: point to point *)

(** [immediate_probe(rank_t source, tag_t tag, Status &status)]: the answer
    and [status] after. *)
Definition immediate_probe (comm source tag : Z) (status : Status)
  : M2 (bool * Status) :=
  call_more (CallIprobe source tag comm) ;;;
  let '(rc, flag, mpi_status) := MPI_Iprobe more source tag comm in
  lift_more (check_result rc) ;;;
  if flag =? 0 then ret (false, status)
  else ret (true, mpi_status).

(** [immediate_probe(rank_t source, Status &status)]. *)
Definition immediate_probe_source (comm source : Z) (status : Status) :=
  immediate_probe comm source 0 status.

(** [immediate_probe_any(rank_t tag, Status &status)]. *)
Definition immediate_probe_any_tag (comm tag : Z) (status : Status) :=
  immediate_probe comm (MPI_ANY_SOURCE more) tag status.

(** [immediate_probe_any(Status &status)]. *)
Definition immediate_probe_any (comm : Z) (status : Status) :=
  immediate_probe_any_tag comm 0 status.

(** [immediate_send(T const send[], std::size_t send_count, rank_t dest,
    tag_t tag)]. *)
Definition immediate_send (comm send_count dest tag : Z) : M2 UniqueRequest :=
  (if send_count >? INT_MAX
   then throw (StdOutOfRange "send array is too large")
   else ret tt) ;;;
  call_more (CallIsend send_count dest tag comm) ;;;
  let '(rc, request) := MPI_Isend more send_count dest tag comm in
  with_local (lift_more (UniqueRequest_dtor (mkUniqueHandle request : UniqueRequest)))
    (lift_more (check_result rc)) ;;;
  ret (mkUniqueHandle request : UniqueRequest).

(** [immediate_recv(T recv[], std::size_t recv_count, rank_t source,
    tag_t tag)]. *)
Definition immediate_recv (comm recv_count source tag : Z) : M2 UniqueRequest :=
  (if recv_count >? INT_MAX
   then throw (StdOutOfRange "receive array is too large")
   else ret tt) ;;;
  call_more (CallIrecv recv_count source tag comm) ;;;
  let '(rc, request) := MPI_Irecv more recv_count source tag comm in
  with_local (lift_more (UniqueRequest_dtor (mkUniqueHandle request : UniqueRequest)))
    (lift_more (check_result rc)) ;;;
  ret (mkUniqueHandle request : UniqueRequest).

(** [recv_with_status(T recv[], std::size_t recv_count, rank_t source,
    tag_t tag)]. *)
Definition recv_with_status (comm recv_count source tag : Z) : M2 Status :=
  (if recv_count >? INT_MAX
   then throw (StdOutOfRange "receive array is too large")
   else ret tt) ;;;
  call_more (CallRecv recv_count source tag comm) ;;;
  let '(rc, status) := MPI_Recv more recv_count source tag comm in
  lift_more (check_result rc) ;;;
  ret status.

(** [recv(T recv[], std::size_t recv_count, rank_t source, tag_t tag)]. *)
Definition recv (comm recv_count source tag : Z) : M2 unit :=
  (if recv_count >? INT_MAX
   then throw (StdOutOfRange "receive array is too large")
   else ret tt) ;;;
  call_more (CallRecv recv_count source tag comm) ;;;
  lift_more (check_result (fst (MPI_Recv more recv_count source tag comm))).

(** *** group.hpp *)

(** [GroupRange::GroupRange()]: the member initialisers. *)
Definition GroupRange_default : GroupRange := mkGroupRange 0 (-1) 1.

(** [GroupRange::unit_stride(rank_t from, rank_t to)]. *)
Definition unit_stride (from to : Z) : GroupRange :=
  let r := GroupRange_default in
  let r := mkGroupRange from (last r) (stride r) in
  let r := mkGroupRange (first r) to (stride r) in
  r.

(** [GroupImpl::range_incl(std::span<GroupRange> ranges)]. *)
Definition range_incl (group : Z) (ranges : list GroupRange) : M2 UniqueGroup :=
  (if span_length ranges >? INT_MAX
   then throw (StdOutOfRange "ranges array is too large")
   else ret tt) ;;;
  call_more (CallGroupRangeIncl group ranges) ;;;
  let '(rc, g) := MPI_Group_range_incl more group ranges in
  with_local (lift_more (UniqueHandle_dtor (mkUniqueHandle g : UniqueGroup)))
    (lift_more (check_result rc)) ;;;
  ret (mkUniqueHandle g : UniqueGroup).

(** [GroupImpl::range_incl(GroupRange &range)]. *)
Definition range_incl_one (group : Z) (range : GroupRange) : M2 UniqueGroup :=
  range_incl group [range].

(** [GroupImpl::range_incl(rank_t from, rank_t to)]. *)
Definition range_incl_from_to (group from to : Z) : M2 UniqueGroup :=
  let range := unit_stride from to in
  range_incl_one group range.

(** [GroupImpl::range_excl(std::span<GroupRange> ranges)]. *)
Definition range_excl (group : Z) (ranges : list GroupRange) : M2 UniqueGroup :=
  (if span_length ranges >? INT_MAX
   then throw (StdOutOfRange "ranges array is too large")
   else ret tt) ;;;
  call_more (CallGroupRangeExcl group ranges) ;;;
  let '(rc, g) := MPI_Group_range_excl more group ranges in
  with_local (lift_more (UniqueHandle_dtor (mkUniqueHandle g : UniqueGroup)))
    (lift_more (check_result rc)) ;;;
  ret (mkUniqueHandle g : UniqueGroup).

(** [GroupImpl::range_excl(GroupRange &range)]. *)
Definition range_excl_one (group : Z) (range : GroupRange) : M2 UniqueGroup :=
  range_excl group [range].

(** [GroupImpl::range_excl(rank_t from, rank_t to)]. *)
Definition range_excl_from_to (group from to : Z) : M2 UniqueGroup :=
  let range := unit_stride from to in
  range_excl_one group range.

(** *** mpi.hpp: the other multiple completions *)

(** [wait_any(std::span<UniqueRequest> requests, Status &status)]: the index
    and [status] after. *)
Definition wait_any_status
  : Prog (list MoreCall * (WaitBuffers * World)) (Z * Status) :=
  b <- lift_more get_mem ;;
  let requests := wb_requests b in
  (if span_length requests >? INT_MAX
   then throw (StdOutOfRange "requests array is too large")
   else ret tt) ;;;
  call_more (CallWaitany requests) ;;;
  let '(rc, requests', index, mpi_status) := MPI_Waitany more requests in
  requests' <- store_or_undefined requests requests' ;;
  lift_more (put_mem (mkWaitBuffers requests' (wb_indices b) (wb_statuses b))) ;;;
  lift_more (lift (check_result rc)) ;;;
  ret (index, mpi_status).

(** [wait_any(std::span<UniqueRequest> requests)]. *)
Definition wait_any : Prog (list MoreCall * (WaitBuffers * World)) Z :=
  b <- lift_more get_mem ;;
  let requests := wb_requests b in
  (if span_length requests >? INT_MAX
   then throw (StdOutOfRange "requests array is too large")
   else ret tt) ;;;
  call_more (CallWaitany requests) ;;;
  let '(rc, requests', index, _) := MPI_Waitany more requests in
  requests' <- store_or_undefined requests requests' ;;
  lift_more (put_mem (mkWaitBuffers requests' (wb_indices b) (wb_statuses b))) ;;;
  lift_more (lift (check_result rc)) ;;;
  ret index.

(** [wait_all_statuses(std::span<UniqueRequest> requests)]: the vector of
    statuses is a local of the function; the status array of the caller
    memory is not touched. *)
Definition wait_all_statuses : Prog (WaitBuffers * World) (list Status) :=
  fun '(b, w) =>
    let statuses := repeat Status_default (List.length (wb_requests b)) in
    let '(o, (b', w')) :=
      wait_all (mkWaitBuffers (wb_requests b) (wb_indices b) statuses, w) in
    (coerce o (Return (wb_statuses b')),
     (mkWaitBuffers (wb_requests b') (wb_indices b') (wb_statuses b), w')).

(* ================================================================== *)
(** * Properties *)

(** ** Equations of the monad *)

Ltac run := unfold bind, ret, throw, get_mem, put_mem, lift, call; cbn beta iota.

Lemma bind_ret_l {S A B} (a : A) (k : A -> Prog S B) (s : S) :
  bind (ret a) k s = k a s.
Proof. reflexivity. Qed.

Lemma bind_return {S A B} (m : Prog S A) (k : A -> Prog S B) s a s' :
  m s = (Return a, s') -> bind m k s = k a s'.
Proof. intros E. unfold bind. now rewrite E. Qed.

Lemma bind_throw {S A B} (m : Prog S A) (k : A -> Prog S B) s e s' :
  m s = (Throw e, s') -> bind m k s = (Throw e, s').
Proof. intros E. unfold bind. now rewrite E. Qed.

Lemma bind_aborted {S A B} (m : Prog S A) (k : A -> Prog S B) s cm c s' :
  m s = (Aborted cm c, s') -> bind m k s = (Aborted cm c, s').
Proof. intros E. unfold bind. now rewrite E. Qed.

Lemma bind_exited {S A B} (m : Prog S A) (k : A -> Prog S B) s c s' :
  m s = (Exited c, s') -> bind m k s = (Exited c, s').
Proof. intros E. unfold bind. now rewrite E. Qed.

Lemma bind_undefined {S A B} (m : Prog S A) (k : A -> Prog S B) s x s' :
  m s = (Undefined x, s') -> bind m k s = (Undefined x, s').
Proof. intros E. unfold bind. now rewrite E. Qed.

Lemma aborts_bind {S A B} (m : Prog S A) (k : A -> Prog S B) s cm c :
  aborts_communicator (m s) cm c -> aborts_communicator (bind m k s) cm c.
Proof.
  unfold aborts_communicator, bind.
  destruct (m s) as [[] ?]; simpl; congruence.
Qed.

(** ** exception.hpp *)

Lemma vector_resize_nil_length {A} (value : A) n :
  List.length (vector_resize value [] n) = n.
Proof.
  unfold vector_resize. rewrite firstn_nil. simpl.
  rewrite repeat_length. lia.
Qed.

(** Writing a text at the front of the buffer and cutting the buffer at the
    length of the text gives the text back. *)
Lemma vector_resize_written {A} (value : A) (text rest : list A) :
  vector_resize value (text ++ rest) (List.length text) = text.
Proof.
  unfold vector_resize.
  rewrite firstn_app, firstn_all, Nat.sub_diag. simpl.
  rewrite length_app.
  replace (List.length text - (List.length text + List.length rest))%nat
    with 0%nat by lia.
  simpl. now rewrite !app_nil_r.
Qed.

(** The constructor, when the library knows the code. *)
Lemma Exception_ctor_found errorcode text w :
  MPI_Error_string mpi errorcode = (MPI_SUCCESS mpi, text) ->
  (List.length text <= MPI_MAX_ERROR_STRING mpi)%nat ->
  Exception_ctor errorcode w =
    (Return (MpiException errorcode (text ++ [zero])),
     logged w (CallErrorString errorcode)).
Proof.
  intros E Hlen. unfold Exception_ctor.
  unfold bind at 1. unfold call. rewrite E.
  destruct (Nat.ltb_spec (MPI_MAX_ERROR_STRING mpi) (List.length text)); [lia|].
  rewrite Z.eqb_refl. simpl.
  rewrite bind_ret_l, vector_resize_written. reflexivity.
Qed.

(** The constructor, when the library does not. *)
Lemma Exception_ctor_not_found errorcode rc text w :
  MPI_Error_string mpi errorcode = (rc, text) ->
  rc <> MPI_SUCCESS mpi ->
  (List.length text <= MPI_MAX_ERROR_STRING mpi)%nat ->
  Exception_ctor errorcode w =
    (Aborted (MPI_COMM_WORLD mpi) EXIT_FAILURE,
     logged (logged w (CallErrorString errorcode))
            (CallAbort (MPI_COMM_WORLD mpi) EXIT_FAILURE)).
Proof.
  intros E Hrc Hlen. unfold Exception_ctor.
  unfold bind at 1. unfold call. rewrite E.
  destruct (Nat.ltb_spec (MPI_MAX_ERROR_STRING mpi) (List.length text)); [lia|].
  destruct (Z.eqb_spec (MPI_SUCCESS mpi) rc); [congruence|]. simpl.
  reflexivity.
Qed.

Lemma check_result_success w : check_result (MPI_SUCCESS mpi) w = (Return tt, w).
Proof. unfold check_result. now rewrite Z.eqb_refl. Qed.

Lemma check_result_failure errorcode w :
  errorcode <> MPI_SUCCESS mpi ->
  check_result errorcode w = (e <- Exception_ctor errorcode ;; throw e) w.
Proof.
  intros H. unfold check_result.
  destruct (Z.eqb_spec (MPI_SUCCESS mpi) errorcode); [congruence|reflexivity].
Qed.

(** A failure code never lets [check_result] return. *)
Lemma check_result_failure_no_return errorcode w :
  errorcode <> MPI_SUCCESS mpi ->
  ~ returns_normally (check_result errorcode w).
Proof.
  intros H [a Ha]. rewrite check_result_failure in Ha by assumption.
  unfold bind, throw in Ha.
  destruct (Exception_ctor errorcode w) as [[] ?]; simpl in Ha; discriminate.
Qed.

(** C10 (amended).  [check_result(code)] returns normally exactly when
    [code] is the success value, and then it changes nothing.  For any other
    code it asks the library for the text of the code: when that lookup
    succeeds it throws an [Exception] that carries [code] and the text the
    library gave during the construction, NUL-terminated; when the lookup
    itself fails it aborts [MPI_COMM_WORLD] with [EXIT_FAILURE] and throws
    nothing. *)
Theorem check_result_gate (code : Z) (w : World) (rc : Z) (text : list ascii) :
  MPI_Error_string mpi code = (rc, text) ->
  (List.length text <= MPI_MAX_ERROR_STRING mpi)%nat ->
  (returns_normally (check_result code w) <-> code = MPI_SUCCESS mpi) /\
  (code = MPI_SUCCESS mpi -> check_result code w = (Return tt, w)) /\
  (code <> MPI_SUCCESS mpi -> rc = MPI_SUCCESS mpi ->
     exists e,
       check_result code w = (Throw e, logged w (CallErrorString code)) /\
       Exception_errorcode e = Some code /\
       Exception_what e = Some (text ++ [zero])) /\
  (code <> MPI_SUCCESS mpi -> rc <> MPI_SUCCESS mpi ->
     aborts_communicator (check_result code w) (MPI_COMM_WORLD mpi) EXIT_FAILURE).
Proof.
  intros E Hlen. repeat split.
  - intros Hret. destruct (Z.eq_dec code (MPI_SUCCESS mpi)) as [|Hne]; [assumption|].
    now apply check_result_failure_no_return in Hret.
  - intros ->. exists tt. now rewrite check_result_success.
  - intros ->. apply check_result_success.
  - intros Hne ->. exists (MpiException code (text ++ [zero])).
    rewrite check_result_failure by assumption.
    erewrite bind_return by (apply Exception_ctor_found; eassumption).
    repeat split.
  - intros Hne Hrc. unfold aborts_communicator.
    rewrite check_result_failure by assumption.
    erewrite bind_aborted by (eapply Exception_ctor_not_found; eassumption).
    reflexivity.
Qed.

(** ** datatype.hpp and the operator traits *)

Lemma accepts_enable_if OT T value :
  is_applicable OT T = enable_if_datatype T value ->
  is_datatype_v T = true ->
  accepts OT T = value.
Proof.
  intros E D. unfold accepts, Op_is_applicable, enable_if_datatype in *.
  rewrite E, D. now destruct value.
Qed.

(** C8.  At every value type that has a datatype-traits record, a bitwise
    operator is applicable exactly when the type is classified as an
    integer, and a logical operator exactly when it is classified as an
    integer or as logical.  [bool] is logical and not an integer: the
    logical operators accept it and the bitwise operators reject it. *)
Theorem operator_applicability (T : CType) :
  is_datatype_v T = true ->
  (Op_is_applicable bitwise_op_traits T = Some (is_c_integer (DatatypeTraits T))) /\
  (accepts bitwise_op_traits T = true <-> is_c_integer (DatatypeTraits T) = true) /\
  (Op_is_applicable logical_op_traits T =
     Some (is_c_integer (DatatypeTraits T) || is_logical (DatatypeTraits T))) /\
  (accepts logical_op_traits T = true <->
     is_c_integer (DatatypeTraits T) = true \/ is_logical (DatatypeTraits T) = true) /\
  (is_datatype_v TBool = true /\
   is_logical (DatatypeTraits TBool) = true /\
   is_c_integer (DatatypeTraits TBool) = false /\
   accepts logical_op_traits TBool = true /\
   accepts bitwise_op_traits TBool = false).
Proof.
  intros D.
  assert (B : accepts bitwise_op_traits T = is_c_integer (DatatypeTraits T))
    by (now apply accepts_enable_if).
  assert (L : accepts logical_op_traits T =
              is_c_integer (DatatypeTraits T) || is_logical (DatatypeTraits T))
    by (now apply accepts_enable_if).
  split; [|split; [|split; [|split]]].
  - unfold Op_is_applicable. simpl. unfold enable_if_datatype. now rewrite D.
  - now rewrite B.
  - unfold Op_is_applicable. simpl. unfold enable_if_datatype. now rewrite D.
  - rewrite L. apply orb_true_iff.
  - repeat split.
Qed.

(** ** handle.hpp and deref.hpp *)

(** C9.  For an owning wrapper and for a reference wrapper alike, [deref()]
    returns a reference whose raw identifier is the one of the wrapper,
    leaves the wrapper as it was and calls nothing in the library; a second
    [deref()] gives a reference to the same identifier. *)
Theorem deref_aliases_without_transfer
    (HT : HandleTraits) (owner : UniqueHandle HT) (ref : Handle HT) (w : World) :
  (exists r : Handle HT,
     deref owner w = (Return (r, owner), w) /\
     Handle_get_raw r = UniqueHandle_get_raw owner /\
     (first <- deref owner ;; second <- deref (snd first) ;;
      ret (fst first, fst second, snd second)) w = (Return (r, r, owner), w)) /\
  (exists r : Handle HT,
     deref ref w = (Return (r, ref), w) /\
     Handle_get_raw r = Handle_get_raw ref /\
     (first <- deref ref ;; second <- deref (snd first) ;;
      ret (fst first, fst second, snd second)) w = (Return (r, r, ref), w)).
Proof.
  split.
  - exists (Handle_from_handle (UniqueHandle_get_raw owner)). repeat split.
  - exists (Handle_from_handle (Handle_get_raw ref)). repeat split.
Qed.

(** The teardown of a null owning wrapper calls nothing. *)
Lemma UniqueHandle_reset_null (HT : HandleTraits) (this : UniqueHandle HT) w :
  UniqueHandle_is_null this = true ->
  snd (UniqueHandle_reset this w) = w /\
  (is_system_handle HT (null HT) = false ->
   UniqueHandle_reset this w = (Return this, w)).
Proof.
  intros N. unfold UniqueHandle_reset, UniqueHandle_bool. rewrite N. simpl.
  assert (E : uhandle_ this = null HT) by (now apply Z.eqb_eq).
  rewrite E. unfold assert.
  destruct NDEBUG, (is_system_handle HT (null HT));
    unfold bind, ret; simpl; rewrite ?N;
    (split; [reflexivity | intros S; first [discriminate S | reflexivity]]).
Qed.

Lemma UniqueHandle_dtor_null (HT : HandleTraits) (this : UniqueHandle HT) w :
  UniqueHandle_is_null this = true ->
  snd (UniqueHandle_dtor this w) = w /\
  (is_system_handle HT (null HT) = false ->
   UniqueHandle_dtor this w = (Return tt, w)).
Proof.
  intros N. destruct (UniqueHandle_reset_null HT this w N) as [W R].
  unfold UniqueHandle_dtor, noexcept, bind.
  split.
  - destruct (UniqueHandle_reset this w) as [[] w']; simpl in *; now subst.
  - intros S. now rewrite (R S).
Qed.

(** C7.  [into_raw()] on an owning wrapper that holds [h] returns [h] and
    leaves the wrapper null: [is_null()] is true and the conversion to bool
    is false.  It calls nothing in the library, and neither does the
    destructor that runs on the wrapper afterwards: the world after it is
    the world before, so [h] is not destroyed.  With a traits' null value
    that is not flagged as a system handle the destructor returns. *)
Theorem into_raw_releases_ownership (HT : HandleTraits) (h : Z) (w : World) :
  exists after : UniqueHandle HT,
    into_raw (mkUniqueHandle h : UniqueHandle HT) w = (Return (h, after), w) /\
    UniqueHandle_is_null after = true /\
    UniqueHandle_bool after = false /\
    snd (UniqueHandle_dtor after w) = w /\
    free_calls (snd (UniqueHandle_dtor after w)) = free_calls w /\
    (is_system_handle HT (null HT) = false ->
     UniqueHandle_dtor after w = (Return tt, w)).
Proof.
  exists (mkUniqueHandle (null HT)).
  assert (N : UniqueHandle_is_null (mkUniqueHandle (null HT) : UniqueHandle HT) = true)
    by (unfold UniqueHandle_is_null; simpl; apply Z.eqb_refl).
  destruct (UniqueHandle_dtor_null HT _ w N) as [W R].
  split; [reflexivity|].
  split; [exact N|].
  split; [unfold UniqueHandle_bool; now rewrite N|].
  split; [exact W|].
  split; [now rewrite W|exact R].
Qed.

(** ** op.hpp: Op *)

(** C6.  An [Op] whose traits are not user-defined releases its handle in
    the body of its destructor, so that the base class finds a null wrapper:
    the whole destruction leaves the world as it was, with no
    [MPI_Op_free] on the builtin identifier.  The traits of every operator
    the header provides are of that kind. *)
Theorem Op_dtor_never_frees_builtin (OT : OpTraits) (this : Op OT) (w : World) :
  is_user_defined OT = false ->
  Op_dtor_body OT this w = (Return (mkUniqueHandle (null OpHandleTraits)), w) /\
  snd (Op_dtor OT this w) = w /\
  free_calls (snd (Op_dtor OT this w)) = free_calls w /\
  (is_system_handle OpHandleTraits (null OpHandleTraits) = false ->
   Op_dtor OT this w = (Return tt, w)) /\
  (is_user_defined comparison_op_traits = false /\
   is_user_defined accumulate_op_traits = false /\
   is_user_defined logical_op_traits = false /\
   is_user_defined bitwise_op_traits = false).
Proof.
  intros U.
  assert (B : Op_dtor_body OT this w =
              (Return (mkUniqueHandle (null OpHandleTraits)), w))
    by (unfold Op_dtor_body; now rewrite U).
  assert (N : UniqueHandle_is_null
                (mkUniqueHandle (null OpHandleTraits) : UniqueHandle OpHandleTraits)
              = true)
    by (unfold UniqueHandle_is_null; cbn [uhandle_]; apply Z.eqb_refl).
  destruct (UniqueHandle_dtor_null OpHandleTraits _ w N) as [W R].
  assert (D : Op_dtor OT this w =
              UniqueHandle_dtor
                (mkUniqueHandle (null OpHandleTraits) : UniqueHandle OpHandleTraits) w).
  { unfold Op_dtor. unfold bind at 1. unfold noexcept. now rewrite B. }
  split; [exact B|].
  split; [now rewrite D|].
  split; [now rewrite D, W|].
  split; [intros S; rewrite D; now apply R|].
  repeat split.
Qed.

(** ** request.hpp: UniqueRequest *)

(** C3.  A [UniqueRequest] whose handle is not null prints the diagnostic on
    [std::cout] and exits with [EXIT_FAILURE] when it is destroyed and when
    another request is move-assigned onto it; nothing is called in the
    library.  A [UniqueRequest] whose handle is null is destroyed cleanly:
    the destructor returns and the world is unchanged, so the destroy
    procedure did not run. *)
Theorem UniqueRequest_must_be_completed (this other : UniqueRequest) (w : World) :
  (UniqueHandle_is_null this = false ->
     UniqueRequest_dtor this w =
       (Exited EXIT_FAILURE,
        printed_out w [Str requests_must_be_completed; Endl]) /\
     UniqueRequest_move_assign this other w =
       (Exited EXIT_FAILURE,
        printed_out w [Str requests_must_be_completed; Endl])) /\
  (UniqueHandle_is_null this = true ->
     UniqueRequest_dtor this w = (Return tt, w) /\
     free_calls (snd (UniqueRequest_dtor this w)) = free_calls w).
Proof.
  split; intros N.
  - unfold UniqueRequest_dtor, UniqueRequest_move_assign, check_null.
    rewrite N. now split.
  - assert (D : UniqueRequest_dtor this w = (Return tt, w)).
    { unfold UniqueRequest_dtor, check_null. rewrite N. simpl.
      unfold bind at 1. unfold noexcept, ret.
      now apply (UniqueHandle_dtor_null RequestHandleTraits this w N). }
    now rewrite D.
Qed.

(** A request that was waited on, the library succeeding and leaving
    [MPI_REQUEST_NULL] in it, is destroyed cleanly. *)
Lemma waited_request_destructs_cleanly (this : UniqueRequest) (w : World) :
  MPI_Wait mpi (uhandle_ this) = (MPI_SUCCESS mpi, mpi_null mpi KRequest) ->
  (completed <- UniqueRequest_wait this ;; UniqueRequest_dtor completed) w =
    (Return tt, logged w (CallWait (uhandle_ this))).
Proof.
  intros E. unfold UniqueRequest_wait. run. rewrite E, check_result_success.
  unfold UniqueRequest_dtor, check_null, UniqueHandle_is_null.
  cbn [uhandle_ null RequestHandleTraits]. rewrite Z.eqb_refl. cbn [negb].
  unfold bind at 1. unfold noexcept, ret.
  apply (UniqueHandle_dtor_null RequestHandleTraits
           (mkUniqueHandle (mpi_null mpi KRequest))); [|reflexivity].
  unfold UniqueHandle_is_null. cbn [uhandle_ null RequestHandleTraits].
  apply Z.eqb_refl.
Qed.

(** ** mpi.hpp: multiple completions *)

(** C4.  [wait_all] with fewer statuses than requests, and [wait_some] with
    fewer indices than requests or with a statuses span that has fewer
    statuses than requests, throw an exception that is a [std::logic_error]
    ([std::out_of_range], which derives from it, when the request list is
    longer than [INT_MAX]; [std::logic_error] itself with the message of the
    check otherwise).  The caller memory and the world are as before: the
    library was not called and the requests are not modified. *)
Theorem batch_wait_rejects_small_buffers (b : WaitBuffers) (w : World) :
  (span_length (wb_statuses b) < span_length (wb_requests b) ->
   exists e,
     wait_all (b, w) = (Throw e, (b, w)) /\ is_logic_error e = true /\
     (span_length (wb_requests b) <= INT_MAX ->
      e = StdLogicError
            "statuses array must be large enough to hold a status for each request")) /\
  (span_length (wb_indices b) < span_length (wb_requests b) ->
   forall with_statuses, exists e,
     wait_some with_statuses (b, w) = (Throw e, (b, w)) /\ is_logic_error e = true /\
     (span_length (wb_requests b) <= INT_MAX ->
      e = StdLogicError
            "indices array must be large enough to hold an index for each request")) /\
  (span_length (wb_statuses b) < span_length (wb_requests b) ->
   exists e,
     wait_some true (b, w) = (Throw e, (b, w)) /\ is_logic_error e = true /\
     (span_length (wb_requests b) <= INT_MAX ->
      span_length (wb_requests b) <= span_length (wb_indices b) ->
      e = StdLogicError
            "statuses array must be large enough to hold a status for each request")).
Proof.
  split; [|split].
  - intros Hs. unfold wait_all. run.
    destruct (Z.gtb_spec (span_length (wb_requests b)) INT_MAX) as [Hbig|Hfit].
    + eexists; repeat split. intros; lia.
    + destruct (Z.ltb_spec (span_length (wb_statuses b)) (span_length (wb_requests b)));
        [|lia].
      eexists; repeat split.
  - intros Hi with_statuses. unfold wait_some. run.
    destruct (Z.gtb_spec (span_length (wb_requests b)) INT_MAX) as [Hbig|Hfit].
    + eexists; repeat split. intros; lia.
    + destruct (Z.ltb_spec (span_length (wb_indices b)) (span_length (wb_requests b)));
        [|lia].
      eexists; repeat split.
  - intros Hs. unfold wait_some. run.
    destruct (Z.gtb_spec (span_length (wb_requests b)) INT_MAX) as [Hbig|Hfit].
    + eexists; repeat split. intros; lia.
    + destruct (Z.ltb_spec (span_length (wb_indices b)) (span_length (wb_requests b))).
      * eexists; repeat split. intros; lia.
      * destruct (Z.ltb_spec (span_length (wb_statuses b)) (span_length (wb_requests b)));
          [|lia].
        eexists; repeat split.
Qed.

Lemma vector_resize_grow {A} (value : A) (v : list A) (n : nat) :
  vector_resize value v (List.length v + n) = v ++ repeat value n.
Proof.
  unfold vector_resize.
  rewrite firstn_all2 by lia.
  now replace (List.length v + n - List.length v)%nat with n by lia.
Qed.

Lemma store_fits {A} (buf written : list A) :
  (List.length written <= List.length buf)%nat ->
  store buf written = Some (written ++ skipn (List.length written) buf).
Proof.
  intros H. unfold store.
  now destruct (Nat.leb_spec (List.length written) (List.length buf)); [|lia].
Qed.

Lemma skipn_repeat {A} (value : A) (m n : nat) :
  skipn m (repeat value n) = repeat value (n - m).
Proof.
  revert n. induction m as [|m IH]; intros [|n]; simpl; try reflexivity.
  apply IH.
Qed.



(** When [MPI_Waitsome] reports [MPI_UNDEFINED], the exception of
    [wait_some] leaves [wait_some_into] after the first [resize] and before
    the second: the former content is followed by one value-initialised
    entry per request. *)
Lemma wait_some_into_undefined
    (requests old : list Z) (statuses : list Status) (w : World) :
  let res := MPI_Waitsome mpi requests in
  span_length requests <= INT_MAX ->
  span_length old + span_length requests <= vector_max_size ->
  ws_requests res = requests ->
  ws_indices res = [] ->
  ws_code res = MPI_SUCCESS mpi ->
  ws_outcount res = MPI_UNDEFINED mpi ->
  wait_some_into (mkWaitBuffers requests old statuses, w) =
    (Throw (StdLogicError
       "mpi::wait_some should only be called when there are still completed requests"),
     (mkWaitBuffers requests (old ++ repeat 0 (List.length requests)) statuses,
      logged w (CallWaitsome requests))).
Proof.
  intros res Hfit Hvec Hreq Hind Hcode Hout.
  unfold wait_some_into. run. cbn [wb_requests wb_indices wb_statuses].
  unfold vector_int_resize, size_t_add, span_length in *.
  rewrite Z.mod_small by (unfold SIZE_MAX, vector_max_size in *; lia).
  destruct (Z.gtb_spec (Z.of_nat (List.length old) + Z.of_nat (List.length requests))
              vector_max_size); [lia|].
  run.
  rewrite <- Nat2Z.inj_add, !Nat2Z.id, vector_resize_grow.
  rewrite firstn_app, firstn_all, Nat.sub_diag, firstn_O, app_nil_r.
  rewrite skipn_app, skipn_all, Nat.sub_diag, skipn_O. cbn [app].
  unfold wait_some. run. cbn [wb_requests wb_indices wb_statuses].
  unfold span_length. rewrite repeat_length.
  destruct (Z.gtb_spec (Z.of_nat (List.length requests)) INT_MAX); [lia|].
  rewrite Z.ltb_irrefl. fold res.
  unfold store_or_undefined.
  rewrite Hreq, Hind, !store_fits by (rewrite ?repeat_length; simpl; lia).
  run. rewrite Hcode, check_result_success, Hout, Z.eqb_refl.
  cbn [app skipn coerce wb_requests wb_indices wb_statuses].
  now rewrite skipn_all, app_nil_r.
Qed.



(** ** comm.hpp: the root-only collectives *)

Lemma rank_reported comm r w :
  MPI_Comm_rank mpi comm = (MPI_SUCCESS mpi, r) ->
  rank comm w = (Return r, logged w (CallCommRank comm)).
Proof.
  intros E. unfold rank. run. rewrite E, check_result_success. reflexivity.
Qed.

Lemma size_reported comm n w :
  MPI_Comm_size mpi comm = (MPI_SUCCESS mpi, n) ->
  size comm w = (Return n, logged w (CallCommSize comm)).
Proof.
  intros E. unfold size. run. rewrite E, check_result_success. reflexivity.
Qed.

(** [reduce_into_root] away from the root aborts the communicator. *)
Lemma reduce_into_root_off_root comm op root r send send_count recv recv_count w :
  MPI_Comm_rank mpi comm = (MPI_SUCCESS mpi, r) ->
  r <> root ->
  aborts_communicator
    (reduce_into_root comm op root send send_count recv recv_count w)
    comm EXIT_FAILURE.
Proof.
  intros E Hr. unfold aborts_communicator, reduce_into_root.
  erewrite bind_return by (eapply rank_reported; eassumption).
  destruct (Z.eqb_spec root r); [congruence|]. cbn [negb].
  unfold bind at 1. unfold bind at 1.
  erewrite rank_reported by eassumption.
  reflexivity.
Qed.

(** [reduce_into_root] at the root with a receive array: whatever the two
    counts are, the call goes on to [MPI_Reduce].  The comparison of the
    counts guards a second test of [recv] against [nullptr], which cannot
    hold after the first one. *)
Lemma reduce_into_root_counts_not_compared
    comm op root send send_count recv recv_count w :
  MPI_Comm_rank mpi comm = (MPI_SUCCESS mpi, root) ->
  recv <> nullptr ->
  send_count <= INT_MAX ->
  reduce_into_root comm op root send send_count recv recv_count w =
    check_result (MPI_Reduce mpi send_count op root comm)
      (logged (logged (logged w (CallCommRank comm)) (CallCommRank comm))
              (CallReduce send_count op root comm)).
Proof.
  intros Er Hrecv Hs. unfold reduce_into_root.
  erewrite bind_return by (eapply rank_reported; eassumption).
  rewrite Z.eqb_refl. cbn [negb]. rewrite bind_ret_l.
  unfold reduce.
  erewrite bind_return by (eapply rank_reported; eassumption).
  rewrite Z.eqb_refl. unfold is_nullptr.
  destruct (Z.eqb_spec recv nullptr); [congruence|].
  destruct (Z.gtb_spec send_count INT_MAX); [lia|].
  destruct (recv_count <? send_count); reflexivity.
Qed.

(** The sibling [all_reduce] does compare the counts. *)
Lemma all_reduce_small_recv comm op r send send_count recv recv_count w :
  MPI_Comm_rank mpi comm = (MPI_SUCCESS mpi, r) ->
  send_count <= INT_MAX ->
  recv_count < send_count ->
  aborts_communicator
    (all_reduce comm op send send_count recv recv_count w) comm EXIT_FAILURE.
Proof.
  intros Er Hs Hsmall. unfold aborts_communicator, all_reduce.
  destruct (Z.gtb_spec send_count INT_MAX); [lia|].
  destruct (Z.ltb_spec recv_count send_count); [|lia].
  rewrite bind_ret_l. unfold bind at 1. unfold bind at 1.
  erewrite rank_reported by eassumption.
  reflexivity.
Qed.

(* ================================================================== *)
(** * Further properties *)

(** ** The log of free calls *)

Lemma free_calls_logged w c :
  free_calls (logged w c) = free_calls w ++ (if is_free_call c then [c] else []).
Proof.
  unfold free_calls, logged. cbn [w_calls]. rewrite filter_app. cbn [filter].
  now destruct (is_free_call c).
Qed.

Lemma free_calls_Exception_ctor errorcode w :
  free_calls (snd (Exception_ctor errorcode w)) = free_calls w.
Proof.
  unfold Exception_ctor. run.
  destruct (MPI_Error_string mpi errorcode) as [rc text].
  destruct (MPI_MAX_ERROR_STRING mpi <? List.length text)%nat;
    [unfold undefined; cbn [snd]; now rewrite free_calls_logged, app_nil_r|].
  destruct (negb (MPI_SUCCESS mpi =? rc)); unfold mpi_abort; cbn [snd];
    rewrite !free_calls_logged; cbn [is_free_call]; now rewrite ?app_nil_r.
Qed.

Lemma free_calls_check_result rc w :
  free_calls (snd (check_result rc w)) = free_calls w.
Proof.
  unfold check_result. destruct (negb (MPI_SUCCESS mpi =? rc)); [|reflexivity].
  unfold bind. pose proof (free_calls_Exception_ctor rc w) as H.
  now destruct (Exception_ctor rc w) as [[] ?].
Qed.

(** [destroy] is one free call, whatever comes of it. *)
Lemma free_calls_destroy (HT : HandleTraits) h w :
  free_calls (snd (destroy HT h w)) = free_calls w ++ [CallFree (ht_kind HT) h].
Proof.
  unfold destroy. run.
  destruct (mpi_free mpi (ht_kind HT) h) as [rc h'].
  pose proof (free_calls_check_result rc (logged w (CallFree (ht_kind HT) h))) as H.
  rewrite free_calls_logged in H. cbn [is_free_call] in H.
  now destruct (check_result rc (logged w (CallFree (ht_kind HT) h))) as [[] ?].
Qed.

(** Assertions do not touch the state. *)
Lemma snd_assert {S} cond what (s : S) : snd (assert cond what s) = s.
Proof. unfold assert. now destruct NDEBUG, cond. Qed.

Lemma bind_assert {S A} cond what (k : Prog S A) (s : S) :
  (assert cond what ;;; k) s =
    if NDEBUG || cond then k s else (AssertFailed what, s).
Proof. unfold bind, assert. now destruct NDEBUG, cond. Qed.

(** A continuation that keeps the state leaves the state of what runs
    before it. *)
Lemma snd_bind_keeps {S A B} (m : Prog S A) (k : A -> Prog S B) (s : S) :
  (forall a s', snd (k a s') = s') -> snd (bind m k s) = snd (m s).
Proof.
  intros K. unfold bind. destruct (m s) as [[] s']; cbn [snd]; auto.
Qed.

Lemma snd_assert_ret {S A} cond what (a : A) (s : S) :
  snd ((assert cond what ;;; ret a) s) = s.
Proof. rewrite bind_assert. now destruct (NDEBUG || cond). Qed.

(** ** handle.hpp: when the destroy procedure runs *)

(** The calls of the destroy procedure that [reset()] makes. *)
Lemma free_calls_UniqueHandle_reset (HT : HandleTraits) (this : UniqueHandle HT) (w : World) :
  free_calls (snd (UniqueHandle_reset this w)) =
    free_calls w ++
    (if UniqueHandle_is_null this then []
     else if negb NDEBUG && is_system_handle HT (uhandle_ this) then []
     else [CallFree (ht_kind HT) (uhandle_ this)]).
Proof.
  unfold UniqueHandle_reset. rewrite bind_assert.
  destruct (NDEBUG || negb (is_system_handle HT (uhandle_ this))) eqn:Go.
  - assert (Sys : negb NDEBUG && is_system_handle HT (uhandle_ this) = false)
      by (destruct NDEBUG, (is_system_handle HT (uhandle_ this)); easy).
    rewrite Sys, snd_bind_keeps by (intros; apply snd_assert_ret).
    unfold UniqueHandle_bool.
    destruct (UniqueHandle_is_null this); cbn [negb].
    + cbn [ret snd]. now rewrite app_nil_r.
    + rewrite snd_bind_keeps by (intros; apply snd_assert_ret).
      apply free_calls_destroy.
  - assert (Sys : negb NDEBUG && is_system_handle HT (uhandle_ this) = true)
      by (destruct NDEBUG, (is_system_handle HT (uhandle_ this)); easy).
    rewrite Sys. cbn [snd].
    destruct (UniqueHandle_is_null this); now rewrite app_nil_r.
Qed.

(** X1.  [UniqueHandle::reset()], and the destructor that runs it, call the
    destroy procedure once when the wrapper holds a handle that is not null
    and, in a build with assertions, not a system handle; they do not call
    it otherwise.  In a build without assertions a system handle is
    destroyed like any other. *)
Theorem UniqueHandle_reset_frees (HT : HandleTraits) (this : UniqueHandle HT) (w : World) :
  let freed :=
    if UniqueHandle_is_null this then []
    else if negb NDEBUG && is_system_handle HT (uhandle_ this) then []
    else [CallFree (ht_kind HT) (uhandle_ this)] in
  free_calls (snd (UniqueHandle_reset this w)) = free_calls w ++ freed /\
  free_calls (snd (UniqueHandle_dtor this w)) = free_calls w ++ freed.
Proof.
  intros freed. split; [apply free_calls_UniqueHandle_reset|].
  unfold UniqueHandle_dtor.
  replace (snd (noexcept (UniqueHandle_reset this ;;; ret tt) w))
    with (snd (UniqueHandle_reset this w)).
  - apply free_calls_UniqueHandle_reset.
  - unfold noexcept, bind, ret. now destruct (UniqueHandle_reset this w) as [[] ?].
Qed.
(** [check_result] returns only on [MPI_SUCCESS], and then it has touched
    nothing. *)
Lemma check_result_returns rc w w' :
  check_result rc w = (Return tt, w') -> rc = MPI_SUCCESS mpi /\ w' = w.
Proof.
  intros R. destruct (Z.eq_dec rc (MPI_SUCCESS mpi)) as [->|Bad].
  - rewrite check_result_success in R. injection R as <-. now split.
  - exfalso. apply (check_result_failure_no_return rc w Bad).
    unfold returns_normally. rewrite R. cbn. eauto.
Qed.

(** An assertion that is passed, as the last statement. *)
Lemma assert_returns {S} cond what (s s' : S) :
  assert cond what s = (Return tt, s') -> s' = s /\ (NDEBUG = false -> cond = true).
Proof.
  unfold assert, ret. destruct NDEBUG, cond; intros R;
    first [discriminate R | injection R as <-; split; [reflexivity|]; easy].
Qed.

Lemma bind_assoc {S A B C} (m : Prog S A) (f : A -> Prog S B) (g : B -> Prog S C) s :
  bind (bind m f) g s = bind m (fun a => bind (f a) g) s.
Proof. unfold bind. now destruct (m s) as [[] ?]. Qed.

Lemma bind_get_mem {S A} (k : S -> Prog (S * World) A) s w :
  bind get_mem k (s, w) = k s (s, w).
Proof. reflexivity. Qed.

Lemma bind_put_mem {S A} (k : Prog (S * World) A) s' s w :
  (put_mem s' ;;; k) (s, w) = k (s', w).
Proof. reflexivity. Qed.

Lemma bind_lift_call {S A} (k : Prog (S * World) A) c (s : S) w :
  (lift (call c) ;;; k) (s, w) = k (s, logged w c).
Proof. reflexivity. Qed.

Lemma wrapper_store_same (m : Wrappers) (address : nat) (handle : Z) :
  wrapper_store m address handle address = handle.
Proof. unfold wrapper_store. now rewrite Nat.eqb_refl. Qed.

Lemma wrapper_store_other (m : Wrappers) (address a : nat) (handle : Z) :
  a <> address -> wrapper_store m address handle a = m a.
Proof.
  intros D. unfold wrapper_store. now destruct (Nat.eqb_spec a address).
Qed.

(** A [reset()] that returns: the assertions it passed, and what it left in
    the wrapper and in the log. *)
Lemma UniqueHandle_reset_at_returns (HT : HandleTraits) (this : nat)
    (m m1 : Wrappers) (w w1 : World) :
  UniqueHandle_reset_at HT this (m, w) = (Return tt, (m1, w1)) ->
  NDEBUG || negb (is_system_handle HT (m this)) = true /\
  NDEBUG || (m1 this =? null HT) = true /\
  (forall a, a <> this -> m1 a = m a) /\
  (m this = null HT -> m1 this = null HT /\ w1 = w) /\
  (m this <> null HT ->
   mpi_free mpi (ht_kind HT) (m this) = (MPI_SUCCESS mpi, m1 this) /\
   w1 = logged w (CallFree (ht_kind HT) (m this))).
Proof.
  unfold UniqueHandle_reset_at. intros R.
  rewrite bind_get_mem, bind_assert in R.
  destruct (NDEBUG || negb (is_system_handle HT (m this))); [|discriminate R].
  split; [reflexivity|].
  destruct (Z.eqb_spec (m this) (null HT)) as [Null|Live]; cbn [negb] in R.
  - rewrite bind_ret_l, bind_get_mem in R.
    apply assert_returns in R. destruct R as [R C].
    injection R as -> ->.
    split; [now rewrite (proj2 (Z.eqb_eq _ _) Null), orb_true_r|].
    split; [reflexivity|].
    split; [now split|]. intros Live. contradiction.
  - unfold destroy_at in R.
    rewrite !bind_assoc, bind_get_mem, bind_assoc, bind_lift_call in R.
    destruct (mpi_free mpi (ht_kind HT) (m this)) as [rc h'] eqn:Free.
    rewrite bind_assoc, bind_put_mem in R.
    unfold bind at 1 in R. unfold lift at 1 in R.
    destruct (check_result rc (logged w (CallFree (ht_kind HT) (m this))))
      as [[[]| | | | | |] w2] eqn:C; try discriminate R.
    apply check_result_returns in C. destruct C as [-> ->].
    rewrite bind_assoc, bind_get_mem in R. cbn beta in R.
    rewrite wrapper_store_same, bind_assert in R.
    destruct (NDEBUG || (h' =? null HT)) eqn:A1; [|discriminate R].
    rewrite bind_get_mem in R. cbn beta in R. rewrite wrapper_store_same in R.
    apply assert_returns in R. destruct R as [R _].
    injection R as -> ->. rewrite wrapper_store_same.
    split; [exact A1|].
    split; [intros a D; now apply wrapper_store_other|].
    split; [intros Null; contradiction|]. intros _. now split.
Qed.

(** On the value of the member, the in-memory [reset()] is
    [UniqueHandle_reset]. *)
Lemma UniqueHandle_reset_at_agrees (HT : HandleTraits) (this : nat)
    (m m1 : Wrappers) (w w1 : World) :
  UniqueHandle_reset_at HT this (m, w) = (Return tt, (m1, w1)) ->
  UniqueHandle_reset (mkUniqueHandle (m this) : UniqueHandle HT) w =
    (Return (mkUniqueHandle (m1 this)), w1).
Proof.
  intros R. apply UniqueHandle_reset_at_returns in R.
  destruct R as (A0 & A2 & _ & Null & Live).
  unfold UniqueHandle_reset. rewrite bind_assert. cbn [uhandle_]. rewrite A0.
  unfold UniqueHandle_bool, UniqueHandle_is_null. cbn [uhandle_].
  destruct (Z.eqb_spec (m this) (null HT)) as [N|L]; cbn [negb].
  - destruct (Null N) as [E ->].
    rewrite bind_ret_l, bind_assert. cbn [uhandle_].
    rewrite (proj2 (Z.eqb_eq _ _) N), orb_true_r. unfold ret. now rewrite N, E.
  - destruct (Live L) as [Free ->].
    unfold destroy. rewrite !bind_assoc.
    unfold bind at 1. unfold call at 1. rewrite Free.
    rewrite bind_assoc.
    unfold bind at 1. rewrite check_result_success.
    rewrite bind_ret_l, bind_assoc, bind_assert, A2.
    rewrite bind_ret_l, bind_assert. cbn [uhandle_]. now rewrite A2.
Qed.

(** X2.  A move assignment that returns, between two wrappers: the target
    has the handle of the source, in a build with assertions the source is
    left null, and the two wrappers are as [UniqueHandle_move_assign] on
    their values says.  A move assignment of a wrapper to itself that
    returns: the wrapper does not keep its handle; the library freed it, and
    in a build with assertions the wrapper is null.  In both cases the
    destroy procedure ran once on the former handle of the target when that
    was not null, and no other wrapper changed.  A move construction takes
    the handle and leaves the source null, and the destruction of the source
    then calls nothing. *)
Theorem UniqueHandle_move_transfers
    (HT : HandleTraits) (this other : nat) (m m' : Wrappers) (w w' : World) :
  UniqueHandle_move_assign_at HT this other (m, w) = (Return tt, (m', w')) ->
  free_calls w' =
    free_calls w ++
    (if m this =? null HT then [] else [CallFree (ht_kind HT) (m this)]) /\
  (forall a, a <> this -> a <> other -> m' a = m a) /\
  (this <> other ->
   m' this = m other /\
   (NDEBUG = false -> m' other = null HT) /\
   UniqueHandle_move_assign
     (mkUniqueHandle (m this) : UniqueHandle HT) (mkUniqueHandle (m other)) w =
     (Return (mkUniqueHandle (m' this), mkUniqueHandle (m' other)), w')) /\
  (this = other ->
   (NDEBUG = false -> m' this = null HT) /\
   (m this <> null HT ->
    m' this = snd (mpi_free mpi (ht_kind HT) (m this)) /\
    (NDEBUG = false -> m' this <> m this))) /\
  (let '(n, src) :=
     UniqueHandle_move_ctor (mkUniqueHandle (m other) : UniqueHandle HT) in
   uhandle_ n = m other /\ UniqueHandle_is_null src = true /\
   snd (UniqueHandle_dtor src w) = w).
Proof.
  intros R. unfold UniqueHandle_move_assign_at in R. unfold bind at 1 in R.
  destruct (UniqueHandle_reset_at HT this (m, w)) as [[[]| | | | | |] [m1 w1]] eqn:Reset;
    try discriminate R.
  change (swap_at this other (m1, w1))
    with (@Return unit tt,
          (wrapper_store (wrapper_store m1 this (m1 other)) other (m1 this), w1)) in R.
  injection R as <- <-.
  pose proof (UniqueHandle_reset_at_agrees HT this m m1 w w1 Reset) as Agree.
  apply UniqueHandle_reset_at_returns in Reset.
  destruct Reset as (A0 & A2 & Frame & Null & Live).
  assert (Left : NDEBUG = false -> m1 this = null HT).
  { intros N. rewrite N in A2. now apply Z.eqb_eq. }
  split; [|split; [|split; [|split]]].
  - destruct (Z.eqb_spec (m this) (null HT)) as [N|L].
    + destruct (Null N) as [_ ->]. now rewrite app_nil_r.
    + destruct (Live L) as [_ ->]. now rewrite free_calls_logged.
  - intros a Dt Do. rewrite !wrapper_store_other by assumption. now apply Frame.
  - intros D. rewrite wrapper_store_same.
    rewrite wrapper_store_other, wrapper_store_same by exact D.
    split; [apply Frame; congruence|]. split; [exact Left|].
    unfold UniqueHandle_move_assign. unfold bind at 1. rewrite Agree.
    unfold swap, ret. cbn [uhandle_].
    rewrite (Frame other) by congruence. reflexivity.
  - intros <-. rewrite wrapper_store_same.
    split; [exact Left|]. intros L. destruct (Live L) as [Free _].
    rewrite Free. split; [reflexivity|].
    intros N. rewrite (Left N). congruence.
  - unfold UniqueHandle_move_ctor, swap. cbn [uhandle_].
    split; [reflexivity|].
    assert (N : UniqueHandle_is_null (mkUniqueHandle (null HT) : UniqueHandle HT) = true)
      by (unfold UniqueHandle_is_null; cbn [uhandle_]; apply Z.eqb_refl).
    split; [exact N|]. now apply UniqueHandle_dtor_null.
Qed.

(** X3.  [Handle::free()] on a reference wrapper calls the destroy
    procedure once when the handle is not null, system handle or not, and
    calls nothing when it is null. *)
Theorem Handle_free_frees (HT : HandleTraits) (this : Handle HT) (w : World) :
  free_calls (snd (Handle_free this w)) =
    free_calls w ++
    (if Handle_is_null this then [] else [CallFree (ht_kind HT) (handle_ this)]) /\
  (Handle_is_null this = true -> Handle_free this w = (Return this, w)).
Proof.
  unfold Handle_free, Handle_bool. split.
  - rewrite snd_bind_keeps by (intros; apply snd_assert_ret).
    destruct (Handle_is_null this); cbn [negb].
    + cbn [ret snd]. now rewrite app_nil_r.
    + rewrite snd_bind_keeps by (intros; reflexivity).
      apply free_calls_destroy.
  - intros N. rewrite N. cbn [negb]. rewrite bind_ret_l, bind_assert, N.
    now rewrite orb_true_r.
Qed.

(** ** op.hpp: the operators the header provides *)

(** X4.  Each of the ten operators the header constructs exists (its
    traits are not user-defined), holds the constant of its name, and that
    constant is one [OpHandleTraits::is_system_handle] recognises. *)
Theorem builtin_operators_are_system_handles :
  Forall2
    (fun (made : option (UniqueHandle OpHandleTraits)) (name : BuiltinOp) =>
       exists op,
         made = Some op /\
         UniqueHandle_get_raw op = MPI_OP mpi name /\
         is_system_handle OpHandleTraits (UniqueHandle_get_raw op) = true)
    [op_max; op_min; op_sum; op_product;
     logical_and; logical_or; logical_xor;
     bitwise_and; bitwise_or; bitwise_xor]
    [MAX; MIN; SUM; PROD; LAND; LOR; LXOR; BAND; BOR; BXOR].
Proof.
  repeat constructor;
    (eexists; split; [reflexivity|]; split; [reflexivity|];
     cbn [UniqueHandle_get_raw uhandle_ is_system_handle OpHandleTraits];
     rewrite Z.eqb_refl; cbn [orb]; now rewrite ?orb_true_r).
Qed.

(** X5.  The defaulted move assignment of [Op] does not release the
    builtin operator its target holds: it reaches [reset()] with it.  In a
    build with assertions the assertion on system handles fails and nothing
    is called; in a build without them [MPI_Op_free] is called on the
    builtin operator. *)
Theorem Op_move_assign_onto_builtin (OT : OpTraits) (this other : Op OT) (w : World) :
  is_system_handle OpHandleTraits (uhandle_ this) = true ->
  UniqueHandle_is_null this = false ->
  (NDEBUG = false ->
   Op_move_assign OT this other w =
     (AssertFailed "!HandleTraits::is_system_handle(handle_)", w)) /\
  (NDEBUG = true ->
   free_calls (snd (Op_move_assign OT this other w)) =
     free_calls w ++ [CallFree KOp (uhandle_ this)]).
Proof.
  intros Sys Live. unfold Op_move_assign, UniqueHandle_move_assign. split; intros N.
  - unfold bind at 1. unfold UniqueHandle_reset. rewrite bind_assert, N, Sys.
    reflexivity.
  - rewrite snd_bind_keeps by (intros; reflexivity).
    rewrite free_calls_UniqueHandle_reset, Live, N. reflexivity.
Qed.

(** ** datatype.hpp and op.hpp: which operator accepts which type *)

(** X6.  A datatype carries at most one of the three classifications.
    Comparison and accumulation operators accept exactly the integer and
    floating-point types, so integer types are accepted by all four operator
    families, floating-point types by comparison and accumulation only,
    logical types by the logical operators only, and a datatype without a
    classification, which [char] is, by none. *)
Theorem operator_acceptance_table (T : CType) :
  is_datatype_v T = true ->
  let d := DatatypeTraits T in
  (is_c_integer d && is_floating_point d = false /\
   is_c_integer d && is_logical d = false /\
   is_floating_point d && is_logical d = false) /\
  accepts comparison_op_traits T = is_c_integer d || is_floating_point d /\
  accepts accumulate_op_traits T = is_c_integer d || is_floating_point d /\
  accepts logical_op_traits T = is_c_integer d || is_logical d /\
  accepts bitwise_op_traits T = is_c_integer d /\
  (is_datatype_v TChar = true /\
   accepts comparison_op_traits TChar = false /\
   accepts accumulate_op_traits TChar = false /\
   accepts logical_op_traits TChar = false /\
   accepts bitwise_op_traits TChar = false).
Proof.
  intros D d. split; [|split; [|split; [|split; [|split]]]].
  - subst d. unfold is_datatype_v in D.
    destruct T; cbn in *; try discriminate D; try (repeat split; reflexivity).
    destruct (sizeof_size_t =? 4); [repeat split; reflexivity|].
    destruct (sizeof_size_t =? 8); [repeat split; reflexivity|discriminate D].
  - now apply accepts_enable_if.
  - now apply accepts_enable_if.
  - now apply accepts_enable_if.
  - now apply accepts_enable_if.
  - repeat split.
Qed.

(** ** Equations for the log of further calls *)

Lemma lift_more_check_result_success (l : list MoreCall) (w : World) :
  lift_more (check_result (MPI_SUCCESS mpi)) (l, w) = (Return tt, (l, w)).
Proof. unfold lift_more. now rewrite check_result_success. Qed.

Lemma with_local_check_result_success
    (dtor : Prog (list MoreCall * World) unit) (l : list MoreCall) (w : World) :
  with_local dtor (lift_more (check_result (MPI_SUCCESS mpi))) (l, w) =
    (Return tt, (l, w)).
Proof. unfold with_local. now rewrite lift_more_check_result_success. Qed.

Ltac run_more :=
  unfold bind, ret, throw, call_more; cbn beta iota;
  rewrite ?with_local_check_result_success, ?lift_more_check_result_success;
  cbn beta iota.

(** ** request.hpp: completing a request before it is dropped *)

(** X7.  A [UniqueRequest] that is waited on and then destroyed: when the
    library succeeds and leaves the null request, the destruction is clean;
    when it succeeds and leaves any other value in the request, the
    destructor prints the diagnostic and exits.  A request that is freed
    (the library succeeding and leaving the null request) is destroyed
    cleanly as well, and [free()] on a null request calls nothing. *)
Theorem released_request_destructs_cleanly (this : UniqueRequest) (w : World) :
  (forall r, MPI_Wait mpi (uhandle_ this) = (MPI_SUCCESS mpi, r) ->
     (completed <- UniqueRequest_wait this ;; UniqueRequest_dtor completed) w =
       if r =? mpi_null mpi KRequest
       then (Return tt, logged w (CallWait (uhandle_ this)))
       else (Exited EXIT_FAILURE,
             printed_out (logged w (CallWait (uhandle_ this)))
               [Str requests_must_be_completed; Endl])) /\
  (UniqueHandle_is_null this = false ->
   mpi_free mpi KRequest (uhandle_ this) = (MPI_SUCCESS mpi, mpi_null mpi KRequest) ->
     (freed <- UniqueRequest_free this ;; UniqueRequest_dtor freed) w =
       (Return tt, logged w (CallFree KRequest (uhandle_ this)))) /\
  (UniqueHandle_is_null this = true -> UniqueRequest_free this w = (Return this, w)).
Proof.
  assert (Clean : forall w0,
    UniqueRequest_dtor (mkUniqueHandle (mpi_null mpi KRequest)) w0 = (Return tt, w0)).
  { intros w0. unfold UniqueRequest_dtor, check_null, UniqueHandle_is_null.
    cbn [uhandle_ null RequestHandleTraits]. rewrite Z.eqb_refl. cbn [negb].
    unfold bind at 1. unfold noexcept, ret.
    apply (UniqueHandle_dtor_null RequestHandleTraits
             (mkUniqueHandle (mpi_null mpi KRequest))); [|reflexivity].
    unfold UniqueHandle_is_null. cbn [uhandle_ null RequestHandleTraits].
    apply Z.eqb_refl. }
  split; [|split].
  - intros r E. unfold UniqueRequest_wait. run. rewrite E, check_result_success.
    destruct (Z.eqb_spec r (mpi_null mpi KRequest)) as [->|Hr].
    + apply Clean.
    + unfold UniqueRequest_dtor, check_null, UniqueHandle_is_null.
      cbn [uhandle_ null RequestHandleTraits].
      destruct (Z.eqb_spec r (mpi_null mpi KRequest)); [congruence|].
      reflexivity.
  - intros Live E. unfold UniqueRequest_free, UniqueHandle_get_raw.
    unfold UniqueHandle_is_null in Live. cbn [null RequestHandleTraits] in Live.
    rewrite Live. cbn [negb]. run. rewrite E, check_result_success.
    apply Clean.
  - intros N. unfold UniqueRequest_free, UniqueHandle_get_raw.
    unfold UniqueHandle_is_null in N. cbn [null RequestHandleTraits] in N.
    now rewrite N.
Qed.

(** X8.  [test_with_status] writes the status only when the library
    reports completion: with a zero flag it answers false and leaves
    [status] as it was, with any other flag it answers true and stores the
    status of the library.  [test()] gives the same answer and the same
    request. *)
Theorem test_with_status_writes_on_completion
    (this : UniqueRequest) (status : Status) (l : list MoreCall) (w : World)
    (r flag : Z) (st : MPI_Status) :
  MPI_Test more (uhandle_ this) = (MPI_SUCCESS mpi, r, flag, st) ->
  UniqueRequest_test_with_status this status (l, w) =
    (Return (negb (flag =? 0), mkUniqueHandle r, if flag =? 0 then status else st),
     (l ++ [CallTest (uhandle_ this)], w)) /\
  UniqueRequest_test this (l, w) =
    (Return (negb (flag =? 0), mkUniqueHandle r),
     (l ++ [CallTest (uhandle_ this)], w)).
Proof.
  intros E. unfold UniqueRequest_test_with_status, UniqueRequest_test.
  rewrite E. run_more. now destruct (flag =? 0).
Qed.

(** ** comm.hpp: point to point *)

(** X9.  [immediate_probe] writes the status only when the library reports
    a message, and the overloads fill in their defaults: without a tag the
    probe is for tag 0, and [immediate_probe_any] is for [MPI_ANY_SOURCE],
    with tag 0 as well when no tag is given. *)
Theorem immediate_probe_writes_on_match
    (comm source tag : Z) (status : Status) (l : list MoreCall) (w : World) :
  (forall flag st,
     MPI_Iprobe more source tag comm = (MPI_SUCCESS mpi, flag, st) ->
     immediate_probe comm source tag status (l, w) =
       (Return (negb (flag =? 0), if flag =? 0 then status else st),
        (l ++ [CallIprobe source tag comm], w))) /\
  immediate_probe_source comm source status = immediate_probe comm source 0 status /\
  immediate_probe_any_tag comm tag status =
    immediate_probe comm (MPI_ANY_SOURCE more) tag status /\
  immediate_probe_any comm status =
    immediate_probe comm (MPI_ANY_SOURCE more) 0 status.
Proof.
  split; [|repeat split].
  intros flag st E. unfold immediate_probe. rewrite E. run_more.
  now destruct (flag =? 0).
Qed.

(** X10.  The request [immediate_send] returns is pending until it is
    completed: dropping it at once makes the destructor print the
    diagnostic and exit, and waiting on it first (the library succeeding and
    leaving the null request) makes the destruction clean. *)
Theorem immediate_send_must_be_completed
    (comm send_count dest tag request : Z) (l : list MoreCall) (w : World) :
  send_count <= INT_MAX ->
  MPI_Isend more send_count dest tag comm = (MPI_SUCCESS mpi, request) ->
  request <> mpi_null mpi KRequest ->
  immediate_send comm send_count dest tag (l, w) =
    (Return (mkUniqueHandle request),
     (l ++ [CallIsend send_count dest tag comm], w)) /\
  (r <- immediate_send comm send_count dest tag ;;
   lift_more (UniqueRequest_dtor r)) (l, w) =
    (Exited EXIT_FAILURE,
     (l ++ [CallIsend send_count dest tag comm],
      printed_out w [Str requests_must_be_completed; Endl])) /\
  (MPI_Wait mpi request = (MPI_SUCCESS mpi, mpi_null mpi KRequest) ->
   (r <- immediate_send comm send_count dest tag ;;
    lift_more (completed <- UniqueRequest_wait r ;; UniqueRequest_dtor completed))
     (l, w) =
    (Return tt,
     (l ++ [CallIsend send_count dest tag comm], logged w (CallWait request)))).
Proof.
  intros Fit E Live.
  assert (S : immediate_send comm send_count dest tag (l, w) =
              (Return (mkUniqueHandle request),
               (l ++ [CallIsend send_count dest tag comm], w))).
  { unfold immediate_send.
    destruct (Z.gtb_spec send_count INT_MAX); [lia|].
    rewrite E. run_more. reflexivity. }
  split; [exact S|]. split.
  - erewrite bind_return by exact S.
    unfold lift_more, UniqueRequest_dtor, check_null, UniqueHandle_is_null.
    cbn [uhandle_ null RequestHandleTraits].
    destruct (Z.eqb_spec request (mpi_null mpi KRequest)); [congruence|].
    reflexivity.
  - intros Wt. erewrite bind_return by exact S.
    unfold lift_more.
    now rewrite (waited_request_destructs_cleanly (mkUniqueHandle request) w Wt).
Qed.

(** X11.  The point-to-point calls take a count of type [size_t] and hand
    an [int] to the library: with a count above [INT_MAX] each of them
    throws [std::out_of_range] and the library is not called. *)
Theorem point_to_point_count_guard
    (comm count peer tag : Z) (l : list MoreCall) (w : World) :
  INT_MAX < count ->
  immediate_send comm count peer tag (l, w) =
    (Throw (StdOutOfRange "send array is too large"), (l, w)) /\
  immediate_recv comm count peer tag (l, w) =
    (Throw (StdOutOfRange "receive array is too large"), (l, w)) /\
  recv_with_status comm count peer tag (l, w) =
    (Throw (StdOutOfRange "receive array is too large"), (l, w)) /\
  recv comm count peer tag (l, w) =
    (Throw (StdOutOfRange "receive array is too large"), (l, w)).
Proof.
  intros Big.
  unfold immediate_send, immediate_recv, recv_with_status, recv.
  destruct (Z.gtb_spec count INT_MAX); [|lia].
  repeat split.
Qed.

(** ** mpi.hpp: what the multiple completions return *)

(** [check_result] throws nothing but the exception of the library. *)
Lemma check_result_throws_Exception rc w e w' :
  check_result rc w = (Throw e, w') -> exists what, e = MpiException rc what.
Proof.
  unfold check_result. destruct (negb (MPI_SUCCESS mpi =? rc)); [|discriminate].
  unfold bind, throw, Exception_ctor, call.
  destruct (MPI_Error_string mpi rc) as [c text].
  destruct (MPI_MAX_ERROR_STRING mpi <? List.length text)%nat; [discriminate|].
  destruct (negb (MPI_SUCCESS mpi =? c)); [discriminate|].
  cbn. intros Thr. injection Thr as <- _. eauto.
Qed.

(** What [wait_some] returns is the count the library reported, which is
    then not [MPI_UNDEFINED]. *)
Lemma wait_some_return_is_outcount
    (with_statuses : bool) (b : WaitBuffers) (w : World) (n : Z)
    (s : WaitBuffers * World) :
  wait_some with_statuses (b, w) = (Return n, s) ->
  n = ws_outcount (MPI_Waitsome mpi (wb_requests b)) /\ n <> MPI_UNDEFINED mpi.
Proof.
  unfold wait_some. run.
  destruct (span_length (wb_requests b) >? INT_MAX); [discriminate|].
  destruct (span_length (wb_indices b) <? span_length (wb_requests b));
    [discriminate|].
  destruct with_statuses.
  - destruct (span_length (wb_statuses b) <? span_length (wb_requests b));
      [discriminate|].
    unfold store_or_undefined.
    destruct (store (wb_requests b) _); [|discriminate].
    destruct (store (wb_indices b) _); [|discriminate].
    destruct (store (wb_statuses b) _); [|discriminate].
    run.
    destruct (check_result _ _) as [[[]| | | | | |] w1]; try discriminate.
    destruct (Z.eqb_spec (ws_outcount (MPI_Waitsome mpi (wb_requests b)))
                (MPI_UNDEFINED mpi)); [discriminate|].
    intros Ret. injection Ret as <- _. now split.
  - unfold store_or_undefined.
    destruct (store (wb_requests b) _); [|discriminate].
    destruct (store (wb_indices b) _); [|discriminate].
    run.
    destruct (check_result _ _) as [[[]| | | | | |] w1]; try discriminate.
    destruct (Z.eqb_spec (ws_outcount (MPI_Waitsome mpi (wb_requests b)))
                (MPI_UNDEFINED mpi)); [discriminate|].
    intros Ret. injection Ret as <- _. now split.
Qed.

(** X12.  When [wait_some] returns, the buffers had room for every request,
    the value returned is the count the library reported, and that count is
    not [MPI_UNDEFINED]. *)
Theorem wait_some_returns_a_count
    (with_statuses : bool) (b : WaitBuffers) (w : World) (n : Z)
    (s : WaitBuffers * World) :
  wait_some with_statuses (b, w) = (Return n, s) ->
  n = ws_outcount (MPI_Waitsome mpi (wb_requests b)) /\
  n <> MPI_UNDEFINED mpi /\
  span_length (wb_requests b) <= INT_MAX /\
  span_length (wb_requests b) <= span_length (wb_indices b) /\
  (with_statuses = true ->
   span_length (wb_requests b) <= span_length (wb_statuses b)) /\
  w_calls (snd s) = w_calls w ++ [CallWaitsome (wb_requests b)].
Proof.
  unfold wait_some. run.
  destruct (Z.gtb_spec (span_length (wb_requests b)) INT_MAX); [discriminate|].
  destruct (Z.ltb_spec (span_length (wb_indices b)) (span_length (wb_requests b)));
    [discriminate|].
  destruct with_statuses.
  - destruct (Z.ltb_spec (span_length (wb_statuses b)) (span_length (wb_requests b)));
      [discriminate|].
    unfold store_or_undefined.
    destruct (store (wb_requests b) _); [|discriminate].
    destruct (store (wb_indices b) _); [|discriminate].
    destruct (store (wb_statuses b) _); [|discriminate].
    run.
    destruct (check_result (ws_code (MPI_Waitsome mpi (wb_requests b)))
                (logged w (CallWaitsome (wb_requests b)))) as [[[]| | | | | |] w1] eqn:C;
      try discriminate.
    destruct (Z.eqb_spec (ws_outcount (MPI_Waitsome mpi (wb_requests b)))
                (MPI_UNDEFINED mpi)); [discriminate|].
    intros Ret. injection Ret as <- <-. cbn [snd].
    assert (w1 = logged w (CallWaitsome (wb_requests b))).
    { unfold check_result in C.
      destruct (negb (MPI_SUCCESS mpi =? ws_code (MPI_Waitsome mpi (wb_requests b)))).
      - unfold bind, throw in C.
        destruct (Exception_ctor _ _) as [[] ?]; discriminate C.
      - now injection C as <-. }
    subst w1. repeat split; auto.
  - unfold store_or_undefined.
    destruct (store (wb_requests b) _); [|discriminate].
    destruct (store (wb_indices b) _); [|discriminate].
    run.
    destruct (check_result (ws_code (MPI_Waitsome mpi (wb_requests b)))
                (logged w (CallWaitsome (wb_requests b)))) as [[[]| | | | | |] w1] eqn:C;
      try discriminate.
    destruct (Z.eqb_spec (ws_outcount (MPI_Waitsome mpi (wb_requests b)))
                (MPI_UNDEFINED mpi)); [discriminate|].
    intros Ret. injection Ret as <- <-. cbn [snd].
    assert (w1 = logged w (CallWaitsome (wb_requests b))).
    { unfold check_result in C.
      destruct (negb (MPI_SUCCESS mpi =? ws_code (MPI_Waitsome mpi (wb_requests b)))).
      - unfold bind, throw in C.
        destruct (Exception_ctor _ _) as [[] ?]; discriminate C.
      - now injection C as <-. }
    subst w1. repeat split; auto. discriminate.
Qed.

Lemma firstn_vector_resize_prefix {A} (value : A) (old rest : list A) (m : nat) :
  (List.length old <= m)%nat ->
  firstn (List.length old) (vector_resize value (old ++ rest) m) = old.
Proof.
  intros H. unfold vector_resize.
  rewrite firstn_app.
  rewrite firstn_firstn, Nat.min_l by exact H.
  rewrite firstn_app, firstn_all, Nat.sub_diag, firstn_O, app_nil_r.
  rewrite length_firstn, length_app.
  replace (List.length old - Nat.min m (List.length old + List.length rest))%nat
    with 0%nat by lia.
  now rewrite firstn_O, app_nil_r.
Qed.

(** X13.  Whatever the outcome of [wait_some_into] (a return, an exception
    of any kind, an abort), the elements that were in the vector are still
    its first elements, as long as the library reports [MPI_UNDEFINED] or a
    count that is not negative. *)
Theorem wait_some_into_keeps_prefix
    (requests old : list Z) (statuses : list Status) (w : World) :
  let res := MPI_Waitsome mpi requests in
  span_length old + span_length requests <= SIZE_MAX ->
  ws_outcount res = MPI_UNDEFINED mpi \/ 0 <= ws_outcount res <= INT_MAX ->
  firstn (List.length old)
    (wb_indices
       (fst (snd (wait_some_into (mkWaitBuffers requests old statuses, w))))) = old.
Proof.
  intros res Hsum Hout.
  unfold wait_some_into. run. cbn [wb_requests wb_indices wb_statuses].
  unfold span_length in *.
  assert (E1 : size_t_add (Z.of_nat (List.length old)) (Z.of_nat (List.length requests))
               = Z.of_nat (List.length old + List.length requests))
    by (unfold size_t_add; rewrite Z.mod_small by lia; lia).
  rewrite !E1. unfold vector_int_resize at 1.
  destruct (Z.gtb_spec (Z.of_nat (List.length old + List.length requests))
              vector_max_size).
  { cbn. apply firstn_all. }
  run.
  rewrite !Nat2Z.id, vector_resize_grow.
  rewrite firstn_app, firstn_all, Nat.sub_diag, firstn_O, app_nil_r.
  rewrite skipn_app, skipn_all, Nat.sub_diag, skipn_O. cbn [app].
  destruct (wait_some false
              ({| wb_requests := requests;
                  wb_indices := repeat 0 (List.length requests);
                  wb_statuses := statuses |}, w)) as [o [b' w']] eqn:WS.
  assert (Keep : firstn (List.length old) (old ++ wb_indices b') = old)
    by (now rewrite firstn_app, firstn_all, Nat.sub_diag, firstn_O, app_nil_r).
  destruct o as [num| | | | | |]; cbn [coerce snd fst wb_indices]; try exact Keep.
  apply wait_some_return_is_outcount in WS. destruct WS as (Hn & Hdef).
  cbn [wb_requests] in Hn. fold res in Hn.
  assert (Hnum : 0 <= num <= INT_MAX) by (destruct Hout; [congruence|lia]).
  unfold vector_int_resize, size_t_add, size_t_of_int.
  destruct (Z.gtb_spec
              ((Z.of_nat (List.length old) + num mod (SIZE_MAX + 1)) mod (SIZE_MAX + 1))
              vector_max_size).
  { cbn [throw snd fst wb_indices]. exact Keep. }
  run. cbn [snd fst wb_indices].
  apply firstn_vector_resize_prefix.
  rewrite (Z.mod_small num) by (unfold SIZE_MAX, INT_MAX in *; lia).
  rewrite Z.mod_small by (unfold SIZE_MAX, INT_MAX, vector_max_size in *; lia).
  lia.
Qed.

(** X14.  [wait_all_statuses] makes its own vector with one status for each
    request, so the check of [wait_all] on the number of statuses cannot
    fail: it never throws a [std::logic_error] proper, and the status array
    of the caller is not touched.  When the request list fits an [int] and
    the library succeeds, it returns the statuses the library stored, one
    for each request. *)
Theorem wait_all_statuses_has_room (b : WaitBuffers) (w : World) :
  (forall what, fst (wait_all_statuses (b, w)) <> Throw (StdLogicError what)) /\
  wb_statuses (fst (snd (wait_all_statuses (b, w)))) = wb_statuses b /\
  (forall requests' statuses',
     span_length (wb_requests b) <= INT_MAX ->
     MPI_Waitall mpi (wb_requests b) = (MPI_SUCCESS mpi, requests', statuses') ->
     List.length requests' = List.length (wb_requests b) ->
     List.length statuses' = List.length (wb_requests b) ->
     wait_all_statuses (b, w) =
       (Return statuses',
        (mkWaitBuffers requests' (wb_indices b) (wb_statuses b),
         logged w (CallWaitall (wb_requests b))))).
Proof.
  split; [|split].
  - intros what. unfold wait_all_statuses, wait_all. run.
    cbn [wb_requests wb_indices wb_statuses].
    unfold span_length at 2. rewrite repeat_length. fold (span_length (wb_requests b)).
    destruct (span_length (wb_requests b) >? INT_MAX); [cbn; discriminate|].
    rewrite Z.ltb_irrefl.
    destruct (MPI_Waitall mpi (wb_requests b)) as [[rc rs] sts].
    unfold store_or_undefined.
    destruct (store (wb_requests b) rs); [|cbn; discriminate].
    destruct (store (repeat Status_default (List.length (wb_requests b))) sts);
      [|cbn; discriminate].
    run.
    destruct (check_result rc (logged w (CallWaitall (wb_requests b))))
      as [[[]| | | | | |] w1] eqn:C; cbn; try discriminate.
    apply check_result_throws_Exception in C. destruct C as [x ->]. discriminate.
  - unfold wait_all_statuses.
    now destruct (wait_all _) as [o [b' w']].
  - intros rs sts Fit E Lr Ls. unfold wait_all_statuses, wait_all. run.
    cbn [wb_requests wb_indices wb_statuses].
    unfold span_length at 2. rewrite repeat_length. fold (span_length (wb_requests b)).
    destruct (Z.gtb_spec (span_length (wb_requests b)) INT_MAX); [lia|].
    rewrite Z.ltb_irrefl, E.
    unfold store_or_undefined.
    rewrite store_fits by lia. run.
    rewrite store_fits by (rewrite repeat_length; apply Nat.eq_le_incl, Ls). run.
    rewrite check_result_success. cbn [coerce wb_requests wb_indices wb_statuses].
    rewrite (skipn_all2 (n := List.length rs)) by (rewrite Lr; apply Nat.le_refl).
    rewrite (skipn_all2 (n := List.length sts))
      by (rewrite repeat_length; apply Nat.eq_le_incl; symmetry; exact Ls).
    now rewrite !app_nil_r.
Qed.

(** X15.  [wait_any] hands back the index the library reports without
    looking at it: [MPI_UNDEFINED], the answer for a list with no active
    request, comes back as a value.  [wait_some] on the matching answer of
    [MPI_Waitsome] throws [std::logic_error] instead. *)
Theorem wait_any_passes_undefined_through
    (b : WaitBuffers) (l : list MoreCall) (w : World) (index : Z) (st : MPI_Status) :
  span_length (wb_requests b) <= INT_MAX ->
  MPI_Waitany more (wb_requests b) = (MPI_SUCCESS mpi, wb_requests b, index, st) ->
  wait_any (l, (b, w)) =
    (Return index, (l ++ [CallWaitany (wb_requests b)], (b, w))) /\
  wait_any_status (l, (b, w)) =
    (Return (index, st), (l ++ [CallWaitany (wb_requests b)], (b, w))) /\
  (span_length (wb_requests b) <= span_length (wb_indices b) ->
   MPI_Waitsome mpi (wb_requests b) =
     mkWaitsome (MPI_SUCCESS mpi) (wb_requests b) (MPI_UNDEFINED mpi) [] [] ->
   wait_some false (b, w) =
     (Throw (StdLogicError
        "mpi::wait_some should only be called when there are still completed requests"),
      (b, logged w (CallWaitsome (wb_requests b))))).
Proof.
  intros Fit E. destruct b as [requests indices statuses].
  cbn [wb_requests wb_indices wb_statuses] in *.
  split; [|split].
  - unfold wait_any, lift_more, get_mem, put_mem, lift, call_more. run.
    cbn [wb_requests wb_indices wb_statuses].
    destruct (Z.gtb_spec (span_length requests) INT_MAX); [lia|].
    rewrite E. unfold store_or_undefined. rewrite store_fits by lia.
    rewrite skipn_all, app_nil_r. run. now rewrite check_result_success.
  - unfold wait_any_status, lift_more, get_mem, put_mem, lift, call_more. run.
    cbn [wb_requests wb_indices wb_statuses].
    destruct (Z.gtb_spec (span_length requests) INT_MAX); [lia|].
    rewrite E. unfold store_or_undefined. rewrite store_fits by lia.
    rewrite skipn_all, app_nil_r. run. now rewrite check_result_success.
  - intros Room S. unfold wait_some. run.
    cbn [wb_requests wb_indices wb_statuses].
    destruct (Z.gtb_spec (span_length requests) INT_MAX); [lia|].
    destruct (Z.ltb_spec (span_length indices) (span_length requests)); [lia|].
    rewrite S. cbn [ws_requests ws_indices ws_code ws_outcount ws_statuses].
    unfold store_or_undefined.
    rewrite !store_fits by (cbn; lia).
    rewrite skipn_all, app_nil_r. cbn [app List.length skipn].
    run. now rewrite check_result_success, Z.eqb_refl.
Qed.

(** ** buffer.hpp *)

(** X16.  A [DynBuffer] made from a [Buffer] keeps the size of the buffer:
    [size()] and [size_int()] both give it back, for every buffer of at most
    [INT_MAX] elements; a larger buffer makes the construction throw
    [std::out_of_range].  [size()] converts the [int] count to [size_t], so
    a [DynBuffer] that was given a negative count directly reports a size
    of 2^64 plus that count. *)
Theorem DynBuffer_of_Buffer_keeps_size (buffer : span) (w : World) :
  0 <= span_size buffer ->
  (span_size buffer <= INT_MAX ->
   exists d,
     DynBuffer_of_Buffer buffer w = (Return d, w) /\
     DynBuffer_size d = span_size buffer /\
     DynBuffer_size_int d = span_size buffer /\
     data_ d = span_data buffer /\ datatype_ d = span_datatype buffer) /\
  (INT_MAX < span_size buffer ->
   DynBuffer_of_Buffer buffer w =
     (Throw (StdOutOfRange "Buffer::size_int: Tried to send too large buffer."), w)) /\
  (forall data count datatype,
     INT_MIN <= count < 0 ->
     DynBuffer_size (mkDynBuffer data count datatype) = SIZE_MAX + 1 + count).
Proof.
  intros Pos. unfold DynBuffer_of_Buffer, Buffer_size_int.
  split; [|split].
  - intros Fit. destruct (Z.gtb_spec (span_size buffer) INT_MAX); [lia|].
    eexists. split; [reflexivity|]. cbn [DynBuffer_size DynBuffer_size_int count_ data_ datatype_].
    repeat split. unfold DynBuffer_size, size_t_of_int. cbn [count_].
    apply Z.mod_small. unfold SIZE_MAX, INT_MAX in *. lia.
  - intros Big. now destruct (Z.gtb_spec (span_size buffer) INT_MAX); [|lia].
  - intros data count datatype Neg. unfold DynBuffer_size, size_t_of_int. cbn [count_].
    symmetry. apply Z.mod_unique with (q := -1); unfold SIZE_MAX, INT_MIN in *; lia.
Qed.

(** ** comm.hpp: reduce without a receive buffer *)

(** X19.  The overloads of [reduce] that take only what is sent pass a null
    receive buffer: on the root they print that the root must supply a
    receive buffer and abort the communicator; on any other rank they call
    [MPI_Reduce]. *)
Theorem reduce_without_recv (comm op root r send : Z) (w : World) :
  MPI_Comm_rank mpi comm = (MPI_SUCCESS mpi, r) ->
  (r = root ->
   forall send_size,
   reduce_value comm op root send w = reduce_vector comm op root send send_size w /\
   reduce_value comm op root send w =
     (Aborted comm EXIT_FAILURE,
      logged
        (printed_err (logged (logged w (CallCommRank comm)) (CallCommRank comm))
           [Int r; Str ": The root rank must supply a receive buffer to Comm::gather";
            Endl])
        (CallAbort comm EXIT_FAILURE))) /\
  (r <> root ->
   (reduce_value comm op root send w =
      check_result (MPI_Reduce mpi 1 op root comm)
        (logged (logged w (CallCommRank comm)) (CallReduce 1 op root comm))) /\
   (forall send_size, send_size <= INT_MAX ->
    reduce_vector comm op root send send_size w =
      check_result (MPI_Reduce mpi send_size op root comm)
        (logged (logged w (CallCommRank comm)) (CallReduce send_size op root comm)))).
Proof.
  intros Er. split.
  - intros <- send_size.
    assert (A : forall count,
      reduce comm op r send count nullptr 0 w =
        (Aborted comm EXIT_FAILURE,
         logged
           (printed_err (logged (logged w (CallCommRank comm)) (CallCommRank comm))
              [Int r; Str ": The root rank must supply a receive buffer to Comm::gather";
               Endl])
           (CallAbort comm EXIT_FAILURE))).
    { intros count. unfold reduce.
      erewrite bind_return by (eapply rank_reported; eassumption).
      rewrite Z.eqb_refl. unfold is_nullptr. rewrite Z.eqb_refl.
      unfold bind at 1. unfold bind at 1. unfold bind at 1.
      erewrite rank_reported by eassumption. reflexivity. }
    unfold reduce_value, reduce_vector. now rewrite !A.
  - intros Hr.
    assert (A : forall count, count <= INT_MAX ->
      reduce comm op root send count nullptr 0 w =
        check_result (MPI_Reduce mpi count op root comm)
          (logged (logged w (CallCommRank comm)) (CallReduce count op root comm))).
    { intros count Fit. unfold reduce.
      erewrite bind_return by (eapply rank_reported; eassumption).
      destruct (Z.eqb_spec root r); [congruence|].
      destruct (Z.gtb_spec count INT_MAX); [lia|]. reflexivity. }
    split; [apply A; unfold INT_MAX; lia|exact A].
Qed.

(** X20.  [reduce_into_root] of one value, on the root: the counts are one
    and one and the receive buffer is a local, so the call reaches
    [MPI_Reduce] with a count of one and returns the value the library
    stored. *)
Theorem reduce_into_root_value_at_root
    (comm op root send recv v : Z) (rest : list Z) (w : World) :
  MPI_Comm_rank mpi comm = (MPI_SUCCESS mpi, root) ->
  recv <> nullptr ->
  MPI_Reduce mpi 1 op root comm = MPI_SUCCESS mpi ->
  MPI_Reduce_stored more 1 op root comm = v :: rest ->
  reduce_into_root_value comm op root send recv w =
    (Return v,
     logged (logged (logged w (CallCommRank comm)) (CallCommRank comm))
       (CallReduce 1 op root comm)).
Proof.
  intros Er Hrecv Ok St. unfold reduce_into_root_value.
  erewrite bind_return.
  2:{ rewrite reduce_into_root_counts_not_compared by (try eassumption; unfold INT_MAX; lia).
      rewrite Ok. apply check_result_success. }
  now rewrite St.
Qed.

(** [all_reduce] with a send count above [INT_MAX]. *)
Lemma all_reduce_too_large (comm op send send_count recv recv_count : Z) (w : World) :
  INT_MAX < send_count ->
  all_reduce comm op send send_count recv recv_count w =
    (Throw (StdOutOfRange "send array is too large"), w).
Proof.
  intros Big. unfold all_reduce.
  now destruct (Z.gtb_spec send_count INT_MAX); [|lia].
Qed.

(** [all_reduce] with a receive count that is large enough. *)
Lemma all_reduce_enough_room (comm op send send_count recv recv_count : Z) (w : World) :
  send_count <= INT_MAX -> send_count <= recv_count ->
  all_reduce comm op send send_count recv recv_count w =
    check_result (MPI_Allreduce mpi send_count op comm)
      (logged w (CallAllreduce send_count op comm)).
Proof.
  intros Fit Room. unfold all_reduce.
  destruct (Z.gtb_spec send_count INT_MAX); [lia|].
  now destruct (Z.ltb_spec recv_count send_count); [lia|].
Qed.

(** X21.  [all_reduce] tests the send count against [INT_MAX] first: a
    count above it throws [std::out_of_range] whatever the receive count
    is.  Below it, a receive count smaller than the send count aborts the
    communicator and any other receive count lets the call go on to
    [MPI_Allreduce]. *)
Theorem all_reduce_checks (comm op send send_count recv recv_count : Z) (w : World) :
  (INT_MAX < send_count ->
   all_reduce comm op send send_count recv recv_count w =
     (Throw (StdOutOfRange "send array is too large"), w)) /\
  (send_count <= INT_MAX -> send_count <= recv_count ->
   all_reduce comm op send send_count recv recv_count w =
     check_result (MPI_Allreduce mpi send_count op comm)
       (logged w (CallAllreduce send_count op comm))) /\
  (forall r, send_count <= INT_MAX -> recv_count < send_count ->
   MPI_Comm_rank mpi comm = (MPI_SUCCESS mpi, r) ->
   all_reduce comm op send send_count recv recv_count w =
     (Aborted comm EXIT_FAILURE,
      logged
        (printed_err (logged w (CallCommRank comm))
           [Int r; Str ": The recv buffer, of size "; Int recv_count;
            Str ", must be at least of size "; Int send_count; Endl])
        (CallAbort comm EXIT_FAILURE))).
Proof.
  split; [apply all_reduce_too_large|]. split; [apply all_reduce_enough_room|].
  unfold all_reduce.
  - intros r Fit Small Er. destruct (Z.gtb_spec send_count INT_MAX); [lia|].
    destruct (Z.ltb_spec recv_count send_count); [|lia].
    rewrite bind_ret_l. unfold bind at 1. unfold bind at 1.
    erewrite rank_reported by eassumption. reflexivity.
Qed.

(** ** comm.hpp: all_gather and all_to_all *)

Lemma lift_more_rank comm r (l : list MoreCall) w :
  MPI_Comm_rank mpi comm = (MPI_SUCCESS mpi, r) ->
  lift_more (rank comm) (l, w) = (Return r, (l, logged w (CallCommRank comm))).
Proof. intros E. unfold lift_more. now rewrite (rank_reported comm r w E). Qed.

Lemma lift_more_size comm n (l : list MoreCall) w :
  MPI_Comm_size mpi comm = (MPI_SUCCESS mpi, n) ->
  lift_more (size comm) (l, w) = (Return n, (l, logged w (CallCommSize comm))).
Proof. intros E. unfold lift_more. now rewrite (size_reported comm n w E). Qed.

(** X22.  [all_gather] into a span with fewer elements than the
    communicator has processes prints the two sizes and aborts the
    communicator, without calling [MPI_Allgather]; with any other span it
    calls [MPI_Allgather].  The overload that returns a vector makes it as
    long as the communicator is large, so it always has room: when the
    library succeeds it returns what the library stored. *)
Theorem all_gather_checks_room
    (comm send n r : Z) (recv : span) (l : list MoreCall) (w : World) :
  MPI_Comm_rank mpi comm = (MPI_SUCCESS mpi, r) ->
  MPI_Comm_size mpi comm = (MPI_SUCCESS mpi, n) ->
  0 <= n <= INT_MAX ->
  (span_size recv < n ->
   all_gather comm send recv (l, w) =
     (Aborted comm EXIT_FAILURE,
      (l,
       logged
         (printed_err
            (logged (logged (logged w (CallCommSize comm)) (CallCommRank comm))
               (CallCommSize comm))
            [Int r; Str ": The recv buffer, of size "; Int (span_size recv);
             Str ", was smaller than the Comm::size() of "; Int n; Endl])
         (CallAbort comm EXIT_FAILURE)))) /\
  (n <= span_size recv ->
   all_gather comm send recv (l, w) =
     lift_more (check_result (fst (MPI_Allgather more comm)))
       (l ++ [CallAllgather comm], logged w (CallCommSize comm))) /\
  (forall storage T sizeof_T stored,
     n <= vector_max_size_of sizeof_T ->
     MPI_Allgather more comm = (MPI_SUCCESS mpi, stored) ->
     span_length stored <= n ->
     all_gather_vector comm send storage T sizeof_T (l, w) =
       (Return (stored ++ repeat 0 (Z.to_nat n - List.length stored)),
        (l ++ [CallAllgather comm],
         logged (logged w (CallCommSize comm)) (CallCommSize comm)))).
Proof.
  intros Er En Hn.
  assert (Sz : size_t_of_int n = n)
    by (unfold size_t_of_int; apply Z.mod_small; unfold SIZE_MAX, INT_MAX in *; lia).
  assert (Go : forall rcv w0, n <= span_size rcv ->
    all_gather comm send rcv (l, w0) =
      lift_more (check_result (fst (MPI_Allgather more comm)))
        (l ++ [CallAllgather comm], logged w0 (CallCommSize comm))).
  { intros rcv w0 Room. unfold all_gather.
    erewrite bind_return by (apply lift_more_size; eassumption).
    rewrite Sz. destruct (Z.ltb_spec (span_size rcv) n); [lia|].
    rewrite bind_ret_l. reflexivity. }
  split; [|split].
  - intros Small. unfold all_gather.
    erewrite bind_return by (apply lift_more_size; eassumption).
    rewrite Sz. destruct (Z.ltb_spec (span_size recv) n); [|lia].
    unfold bind at 1. unfold bind at 1.
    erewrite lift_more_rank by eassumption.
    unfold bind at 1. erewrite lift_more_size by eassumption.
    reflexivity.
  - apply Go.
  - intros storage T sizeof_T stored Hmax E Hst. unfold all_gather_vector.
    erewrite bind_return by (apply lift_more_size; eassumption).
    unfold vector_create. rewrite Sz.
    destruct (Z.gtb_spec n (vector_max_size_of sizeof_T)); [lia|].
    rewrite bind_ret_l.
    assert (L : span_length (repeat 0 (Z.to_nat n)) = n)
      by (unfold span_length; rewrite repeat_length; lia).
    erewrite bind_return.
    2:{ rewrite Go by (cbn [span_size]; lia).
        rewrite E. cbn [fst]. apply lift_more_check_result_success. }
    rewrite E. cbn [snd]. unfold store_or_undefined.
    rewrite store_fits by (unfold span_length in Hst; rewrite repeat_length; lia).
    now rewrite skipn_repeat.
Qed.

(** X23.  [all_to_all] checks the send buffer and then the receive buffer
    against the size of the communicator: a send buffer that is too small,
    or a receive buffer that is too small behind a send buffer that is not,
    aborts the communicator without calling [MPI_Alltoall]; two buffers
    that are large enough reach [MPI_Alltoall]. *)
Theorem all_to_all_checks_room
    (comm n r : Z) (send recv : DynBuffer) (l : list MoreCall) (w : World) :
  MPI_Comm_rank mpi comm = (MPI_SUCCESS mpi, r) ->
  MPI_Comm_size mpi comm = (MPI_SUCCESS mpi, n) ->
  0 <= n <= INT_MAX ->
  (DynBuffer_size send < n ->
   all_to_all comm send recv (l, w) =
     (Aborted comm EXIT_FAILURE,
      (l,
       logged
         (printed_err
            (logged (logged (logged w (CallCommSize comm)) (CallCommRank comm))
               (CallCommSize comm))
            [Int r; Str ": The send buffer, of size "; Int (DynBuffer_size send);
             Str ", must be at least of size "; Int n; Endl])
         (CallAbort comm EXIT_FAILURE)))) /\
  (n <= DynBuffer_size send -> DynBuffer_size recv < n ->
   all_to_all comm send recv (l, w) =
     (Aborted comm EXIT_FAILURE,
      (l,
       logged
         (printed_err
            (logged
               (logged (logged (logged w (CallCommSize comm)) (CallCommSize comm))
                  (CallCommRank comm))
               (CallCommSize comm))
            [Int r; Str ": The recv buffer, of size "; Int (DynBuffer_size recv);
             Str ", must be at least of size "; Int n; Endl])
         (CallAbort comm EXIT_FAILURE)))) /\
  (n <= DynBuffer_size send -> n <= DynBuffer_size recv ->
   all_to_all comm send recv (l, w) =
     lift_more (check_result (fst (MPI_Alltoall more comm)))
       (l ++ [CallAlltoall comm],
        logged (logged w (CallCommSize comm)) (CallCommSize comm))).
Proof.
  intros Er En Hn.
  assert (Sz : size_t_of_int n = n)
    by (unfold size_t_of_int; apply Z.mod_small; unfold SIZE_MAX, INT_MAX in *; lia).
  split; [|split].
  - intros Small. unfold all_to_all.
    erewrite bind_return by (apply lift_more_size; eassumption).
    rewrite Sz. destruct (Z.ltb_spec (DynBuffer_size send) n); [|lia].
    unfold bind at 1. unfold bind at 1. unfold bind at 1.
    erewrite lift_more_rank by eassumption.
    unfold bind at 1. erewrite lift_more_size by eassumption.
    reflexivity.
  - intros RoomS Small. unfold all_to_all.
    erewrite bind_return by (apply lift_more_size; eassumption).
    rewrite Sz. destruct (Z.ltb_spec (DynBuffer_size send) n); [lia|].
    rewrite bind_ret_l.
    erewrite bind_return by (apply lift_more_size; eassumption).
    rewrite Sz. destruct (Z.ltb_spec (DynBuffer_size recv) n); [|lia].
    unfold bind at 1. unfold bind at 1.
    erewrite lift_more_rank by eassumption.
    unfold bind at 1. erewrite lift_more_size by eassumption.
    reflexivity.
  - intros RoomS RoomR. unfold all_to_all.
    erewrite bind_return by (apply lift_more_size; eassumption).
    rewrite Sz. destruct (Z.ltb_spec (DynBuffer_size send) n); [lia|].
    rewrite bind_ret_l.
    erewrite bind_return by (apply lift_more_size; eassumption).
    rewrite Sz. destruct (Z.ltb_spec (DynBuffer_size recv) n); [lia|].
    rewrite bind_ret_l. reflexivity.
Qed.

(** ** group.hpp *)

Lemma one_range_fits (range : GroupRange) :
  (span_length [range] >? INT_MAX) = false.
Proof. reflexivity. Qed.

(** X24.  [range_incl(from, to)] and [range_excl(from, to)] hand the
    library exactly one range, [(from, to, 1)], and never throw
    [std::out_of_range]; when the library succeeds they return an owning
    wrapper on the group it made.  A default [GroupRange] is [(0, -1, 1)]. *)
Theorem range_from_to_is_one_unit_range
    (group from to : Z) (l : list MoreCall) (w : World) :
  GroupRange_default = mkGroupRange 0 (-1) 1 /\
  (forall g, MPI_Group_range_incl more group [mkGroupRange from to 1]
             = (MPI_SUCCESS mpi, g) ->
     range_incl_from_to group from to (l, w) =
       (Return (mkUniqueHandle g),
        (l ++ [CallGroupRangeIncl group [mkGroupRange from to 1]], w))) /\
  (forall g, MPI_Group_range_excl more group [mkGroupRange from to 1]
             = (MPI_SUCCESS mpi, g) ->
     range_excl_from_to group from to (l, w) =
       (Return (mkUniqueHandle g),
        (l ++ [CallGroupRangeExcl group [mkGroupRange from to 1]], w))) /\
  (forall what,
     fst (range_incl_from_to group from to (l, w)) <> Throw (StdOutOfRange what) /\
     fst (range_excl_from_to group from to (l, w)) <> Throw (StdOutOfRange what)).
Proof.
  split; [reflexivity|]. split; [|split].
  - intros g E.
    unfold range_incl_from_to, range_incl_one, range_incl, unit_stride.
    cbn [first stride last GroupRange_default].
    rewrite one_range_fits; cbn iota; rewrite bind_ret_l. unfold bind at 1. unfold call_more.
    cbn [first last stride] in *. rewrite E. run_more. reflexivity.
  - intros g E.
    unfold range_excl_from_to, range_excl_one, range_excl, unit_stride.
    cbn [first stride last GroupRange_default].
    rewrite one_range_fits; cbn iota; rewrite bind_ret_l. unfold bind at 1. unfold call_more.
    cbn [first last stride] in *. rewrite E. run_more. reflexivity.
  - intros what.
    assert (NoRange : forall (dtor : Prog (list MoreCall * World) unit) rc s,
      fst (with_local dtor (lift_more (check_result rc)) s)
        <> Throw (StdOutOfRange what)).
    { intros dtor rc [l0 w0]. unfold with_local, lift_more.
      destruct (check_result rc w0) as [[[]| | | | | |] w1] eqn:C; cbn;
        try discriminate.
      apply check_result_throws_Exception in C. destruct C as [x ->].
      unfold noexcept. destruct (dtor (l0, w1)) as [[] ?]; cbn; discriminate. }
    split.
    + unfold range_incl_from_to, range_incl_one, range_incl, unit_stride.
      rewrite one_range_fits; cbn iota; rewrite bind_ret_l.
      unfold bind at 1. unfold call_more.
      cbn [first last stride GroupRange_default].
      destruct (MPI_Group_range_incl more group [mkGroupRange from to 1]) as [rc g].
      unfold bind.
      pose proof (NoRange
        (lift_more (UniqueHandle_dtor (mkUniqueHandle g : UniqueGroup))) rc
        (l ++ [CallGroupRangeIncl group [mkGroupRange from to 1]], w)) as N.
      destruct (with_local _ _ _) as [[] ?]; cbn in *; try discriminate;
        intros Eq; apply N; injection Eq as ->; reflexivity.
    + unfold range_excl_from_to, range_excl_one, range_excl, unit_stride.
      rewrite one_range_fits; cbn iota; rewrite bind_ret_l.
      unfold bind at 1. unfold call_more.
      cbn [first last stride GroupRange_default].
      destruct (MPI_Group_range_excl more group [mkGroupRange from to 1]) as [rc g].
      unfold bind.
      pose proof (NoRange
        (lift_more (UniqueHandle_dtor (mkUniqueHandle g : UniqueGroup))) rc
        (l ++ [CallGroupRangeExcl group [mkGroupRange from to 1]], w)) as N.
      destruct (with_local _ _ _) as [[] ?]; cbn in *; try discriminate;
        intros Eq; apply N; injection Eq as ->; reflexivity.
Qed.

(** ** comm.hpp: communicators derived from a communicator *)

(** X25.  The communicator [dup()] returns is owned: when the library
    succeeds with a communicator that is neither null nor a system handle,
    destroying the result calls the destroy procedure on it once.  When
    [create()] gives this process the null communicator, the result
    converts to false and its destruction calls nothing. *)
Theorem derived_communicators_are_owned
    (comm group c : Z) (l : list MoreCall) (w : World) :
  (MPI_Comm_dup more comm = (MPI_SUCCESS mpi, c) ->
   c <> mpi_null mpi KComm ->
   is_system_handle CommHandleTraits c = false ->
   dup comm (l, w) = (Return (mkUniqueHandle c), (l ++ [CallCommDup comm], w)) /\
   UniqueHandle_bool (mkUniqueHandle c : UniqueComm) = true /\
   free_calls (snd (UniqueHandle_dtor (mkUniqueHandle c : UniqueComm) w)) =
     free_calls w ++ [CallFree KComm c]) /\
  (MPI_Comm_create more comm group = (MPI_SUCCESS mpi, mpi_null mpi KComm) ->
   create comm group (l, w) =
     (Return (mkUniqueHandle (mpi_null mpi KComm)),
      (l ++ [CallCommCreate comm group], w)) /\
   UniqueHandle_bool (mkUniqueHandle (mpi_null mpi KComm) : UniqueComm) = false /\
   snd (UniqueHandle_dtor (mkUniqueHandle (mpi_null mpi KComm) : UniqueComm) w) = w).
Proof.
  split.
  - intros E Live NotSys. split; [|split].
    + unfold dup. unfold bind at 1. unfold call_more. rewrite E. run_more. reflexivity.
    + unfold UniqueHandle_bool, UniqueHandle_is_null.
      cbn [uhandle_ null CommHandleTraits].
      now destruct (Z.eqb_spec c (mpi_null mpi KComm)).
    + unfold UniqueHandle_dtor.
      assert (D : forall m : M (UniqueHandle CommHandleTraits),
                snd (noexcept (m ;;; ret tt) w) = snd (m w)).
      { intros m. unfold noexcept, bind, ret. now destruct (m w) as [[] ?]. }
      rewrite D, free_calls_UniqueHandle_reset.
      unfold UniqueHandle_is_null. cbn [uhandle_ null CommHandleTraits ht_kind].
      destruct (Z.eqb_spec c (mpi_null mpi KComm)); [congruence|].
      cbn [is_system_handle CommHandleTraits] in *. rewrite NotSys.
      now rewrite andb_false_r.
  - intros E.
    assert (N : UniqueHandle_is_null
                  (mkUniqueHandle (mpi_null mpi KComm) : UniqueComm) = true)
      by (unfold UniqueHandle_is_null; cbn [uhandle_ null CommHandleTraits];
          apply Z.eqb_refl).
    split; [|split].
    + unfold create. unfold bind at 1. unfold call_more. rewrite E. run_more.
      reflexivity.
    + unfold UniqueHandle_bool. now rewrite N.
    + now apply UniqueHandle_dtor_null.
Qed.

(** X26.  The overloads of [all_reduce] that return what they receive give
    the library a receive buffer with the count of the send buffer, so the
    check on the two counts cannot abort: with one value the call goes on to
    [MPI_Allreduce] with a count of one, with a vector of at most [INT_MAX]
    elements it goes on with the length of the vector, and with a longer
    vector it throws [std::out_of_range]. *)
Theorem all_reduce_overloads_have_room
    (comm op send recv storage sizeof_T : Z) (w : World) :
  (forall v rest,
     MPI_Allreduce mpi 1 op comm = MPI_SUCCESS mpi ->
     MPI_Allreduce_stored more 1 op comm = v :: rest ->
     all_reduce_value comm op send recv w =
       (Return v, logged w (CallAllreduce 1 op comm))) /\
  (forall send_size,
     0 <= send_size <= INT_MAX ->
     send_size <= vector_max_size_of sizeof_T ->
     MPI_Allreduce mpi send_size op comm = MPI_SUCCESS mpi ->
     span_length (MPI_Allreduce_stored more send_size op comm) <= send_size ->
     all_reduce_vector comm op send send_size storage sizeof_T w =
       (Return (MPI_Allreduce_stored more send_size op comm ++
                repeat 0 (Z.to_nat send_size
                          - List.length (MPI_Allreduce_stored more send_size op comm))),
        logged w (CallAllreduce send_size op comm))) /\
  (forall send_size,
     INT_MAX < send_size <= vector_max_size_of sizeof_T ->
     all_reduce_vector comm op send send_size storage sizeof_T w =
       (Throw (StdOutOfRange "send array is too large"), w)).
Proof.
  split; [|split].
  - intros v rest Ok St. unfold all_reduce_value.
    erewrite bind_return.
    2:{ rewrite all_reduce_enough_room by (unfold INT_MAX; lia).
        rewrite Ok. apply check_result_success. }
    now rewrite St.
  - intros send_size Fit Hmax Ok Hst. unfold all_reduce_vector, vector_create.
    destruct (Z.gtb_spec send_size (vector_max_size_of sizeof_T)); [lia|].
    rewrite bind_ret_l.
    assert (L : span_length (repeat 0 (Z.to_nat send_size)) = send_size)
      by (unfold span_length; rewrite repeat_length; lia).
    rewrite L.
    erewrite bind_return.
    2:{ rewrite all_reduce_enough_room by lia.
        rewrite Ok. apply check_result_success. }
    unfold store_or_undefined.
    rewrite store_fits by (unfold span_length in Hst; rewrite repeat_length; lia).
    now rewrite skipn_repeat.
  - intros send_size Big. unfold all_reduce_vector, vector_create.
    destruct (Z.gtb_spec send_size (vector_max_size_of sizeof_T)); [lia|].
    rewrite bind_ret_l.
    erewrite bind_throw; [reflexivity|].
    apply all_reduce_too_large. lia.
Qed.

End WithMpi.

(* ================================================================== *)
(** * The properties on the example implementation *)

(** C10, instance: with a code the library knows, [check_result] throws the
    exception that carries the code and the text. *)
Lemma check_result_gate_witness :
  MPI_Error_string mpi_rank0_of_2 5 = (0, list_ascii_of_string invalid_communicator) /\
  (List.length (list_ascii_of_string invalid_communicator)
   <= MPI_MAX_ERROR_STRING mpi_rank0_of_2)%nat /\
  ~ returns_normally (check_result mpi_rank0_of_2 5 initial_world) /\
  exists e,
    check_result mpi_rank0_of_2 5 initial_world =
      (Throw e, logged initial_world (CallErrorString 5)) /\
    Exception_errorcode e = Some 5 /\
    Exception_what e = Some (list_ascii_of_string invalid_communicator ++ [zero]).
Proof.
  assert (E : MPI_Error_string mpi_rank0_of_2 5 =
              (0, list_ascii_of_string invalid_communicator)) by reflexivity.
  assert (L : (List.length (list_ascii_of_string invalid_communicator)
               <= MPI_MAX_ERROR_STRING mpi_rank0_of_2)%nat) by (simpl; lia).
  destruct (check_result_gate mpi_rank0_of_2 5 initial_world 0 _ E L)
    as (R & _ & T & _).
  split; [exact E|]. split; [exact L|]. split.
  - intros H. apply R in H. discriminate H.
  - apply T; [discriminate|reflexivity].
Defined.

(** C10, as stated, fails: with a code the library's error-string facility
    rejects, [check_result] throws nothing.  The constructor of the
    exception aborts [MPI_COMM_WORLD]. *)
Lemma check_result_unknown_code_aborts :
  99 <> MPI_SUCCESS mpi_rank0_of_2 /\
  check_result mpi_rank0_of_2 99 initial_world =
    (Aborted (MPI_COMM_WORLD mpi_rank0_of_2) EXIT_FAILURE,
     mkWorld [] []
       [CallErrorString 99; CallAbort (MPI_COMM_WORLD mpi_rank0_of_2) EXIT_FAILURE]) /\
  ~ (exists e, throws (check_result mpi_rank0_of_2 99 initial_world) e).
Proof.
  split; [discriminate|]. split; [reflexivity|].
  intros [e H]. discriminate H.
Qed.

(** C8, instance: [bool]. *)
Lemma operator_applicability_witness :
  is_datatype_v 8 TBool = true /\
  Op_is_applicable (logical_op_traits 8) TBool = Some true /\
  Op_is_applicable (bitwise_op_traits 8) TBool = Some false.
Proof.
  destruct (operator_applicability 8 TBool eq_refl) as (B & _ & L & _).
  split; [reflexivity|]. split; [exact L|exact B].
Defined.

(** C6, instance: the destruction of [logical_and()]. *)
Lemma Op_dtor_never_frees_builtin_witness :
  is_user_defined (logical_op_traits 8) = false /\
  Op_dtor mpi_rank0_of_2 false (logical_op_traits 8)
    (mkUniqueHandle (MPI_OP mpi_rank0_of_2 LAND)) initial_world =
    (Return tt, initial_world).
Proof.
  split; [reflexivity|].
  apply (Op_dtor_never_frees_builtin mpi_rank0_of_2 false 8 (logical_op_traits 8)
           (mkUniqueHandle (MPI_OP mpi_rank0_of_2 LAND)) initial_world eq_refl).
  reflexivity.
Defined.

(** C3, instance: a pending request and a completed one. *)
Lemma UniqueRequest_must_be_completed_witness :
  let pending : UniqueRequest mpi_rank0_of_2 := mkUniqueHandle pending_request in
  let completed : UniqueRequest mpi_rank0_of_2 :=
    mkUniqueHandle (mpi_null mpi_rank0_of_2 KRequest) in
  UniqueHandle_is_null pending = false /\
  UniqueHandle_is_null completed = true /\
  UniqueRequest_dtor mpi_rank0_of_2 false pending initial_world =
    (Exited EXIT_FAILURE,
     mkWorld [Str requests_must_be_completed; Endl] [] []) /\
  UniqueRequest_move_assign mpi_rank0_of_2 false pending completed initial_world =
    (Exited EXIT_FAILURE,
     mkWorld [Str requests_must_be_completed; Endl] [] []) /\
  UniqueRequest_dtor mpi_rank0_of_2 false completed initial_world =
    (Return tt, initial_world).
Proof.
  intros pending completed.
  destruct (UniqueRequest_must_be_completed mpi_rank0_of_2 false
              pending completed initial_world) as [P _].
  destruct (UniqueRequest_must_be_completed mpi_rank0_of_2 false
              completed pending initial_world) as [_ C].
  destruct (P eq_refl) as [D A]. destruct (C eq_refl) as [R _].
  split; [reflexivity|]. split; [reflexivity|].
  split; [exact D|]. split; [exact A|exact R].
Defined.

(** C4, instance: two requests, one index, one status. *)
Lemma batch_wait_rejects_small_buffers_witness :
  let b := mkWaitBuffers [pending_request; pending_request] [0] [completed_status] in
  span_length (wb_statuses b) < span_length (wb_requests b) /\
  span_length (wb_indices b) < span_length (wb_requests b) /\
  wait_all mpi_rank0_of_2 (b, initial_world) =
    (Throw (StdLogicError
       "statuses array must be large enough to hold a status for each request"),
     (b, initial_world)) /\
  wait_some mpi_rank0_of_2 false (b, initial_world) =
    (Throw (StdLogicError
       "indices array must be large enough to hold an index for each request"),
     (b, initial_world)).
Proof.
  intros b.
  assert (S : span_length (wb_statuses b) < span_length (wb_requests b))
    by (vm_compute; reflexivity).
  assert (I : span_length (wb_indices b) < span_length (wb_requests b))
    by (vm_compute; reflexivity).
  assert (F : span_length (wb_requests b) <= INT_MAX)
    by (vm_compute; discriminate).
  destruct (batch_wait_rejects_small_buffers mpi_rank0_of_2 b initial_world)
    as (A & B & _).
  destruct (A S) as (ea & Ea & _ & Ma).
  destruct (B I false) as (eb & Eb & _ & Mb).
  rewrite (Ma F) in Ea. rewrite (Mb F) in Eb.
  split; [exact S|]. split; [exact I|]. split; [exact Ea|exact Eb].
Defined.



(** C1.  [reduce_into_root] on the root, with a receive array of one
    element for a send array of two: the call does not abort.  It goes on
    to [MPI_Reduce] with a count of two and returns.  [all_reduce] with the
    same counts aborts the communicator. *)
Theorem reduce_into_root_small_recv_not_aborted :
  let mpi := mpi_rank0_of_2 in
  let comm := MPI_COMM_WORLD mpi in
  let sum := MPI_OP mpi SUM in
  reduce_into_root mpi comm sum 0 send_addr 2 recv_addr 1 initial_world =
    (Return tt,
     mkWorld [] []
       [CallCommRank comm; CallCommRank comm; CallReduce 2 sum 0 comm]) /\
  ~ aborts_communicator
      (reduce_into_root mpi comm sum 0 send_addr 2 recv_addr 1 initial_world)
      comm EXIT_FAILURE /\
  aborts_communicator
    (all_reduce mpi comm sum send_addr 2 recv_addr 1 initial_world)
    comm EXIT_FAILURE.
Proof.
  intros mpi comm sum.
  split; [reflexivity|]. split; [|reflexivity].
  intros H. discriminate H.
Qed.

(** ** What the release of [Op] avoids

    The teardown of the base class on a wrapper that still holds a handle
    does reach the destroy procedure, or stops at the assertion on system
    handles when assertions are compiled in. *)

Example UniqueHandle_dtor_frees_live_handle :
  UniqueHandle_dtor mpi_rank0_of_2 true
    (mkUniqueHandle pending_request : UniqueHandle (RequestHandleTraits mpi_rank0_of_2))
    initial_world =
    (Return tt, mkWorld [] [] [CallFree KRequest pending_request]).
Proof. reflexivity. Qed.

Example UniqueHandle_dtor_on_builtin_op :
  let sum : UniqueHandle (OpHandleTraits mpi_rank0_of_2) :=
    mkUniqueHandle (MPI_OP mpi_rank0_of_2 SUM) in
  UniqueHandle_dtor mpi_rank0_of_2 false sum initial_world =
    (AssertFailed "!HandleTraits::is_system_handle(handle_)", initial_world) /\
  UniqueHandle_dtor mpi_rank0_of_2 true sum initial_world =
    (Return tt, mkWorld [] [] [CallFree KOp (MPI_OP mpi_rank0_of_2 SUM)]).
Proof. split; reflexivity. Qed.

(* ================================================================== *)
(** * The further properties on the example implementation *)

(** X2, instances: of two communicator wrappers the first holds a
    duplicate of the world and the second is null.  Assigning the first to
    itself frees the duplicate and leaves the wrapper null; assigning it to
    the second hands the duplicate over and frees nothing. *)
Lemma UniqueHandle_move_transfers_witness :
  let HT := CommHandleTraits mpi_rank0_of_2 in
  let m : Wrappers := fun a => match a with O => duplicate_comm | _ => null HT end in
  let self :=
    UniqueHandle_move_assign_at mpi_rank0_of_2 false HT 0 0 (m, initial_world) in
  let onto :=
    UniqueHandle_move_assign_at mpi_rank0_of_2 false HT 1 0 (m, initial_world) in
  (fst self = Return tt /\
   fst (snd self) 0%nat = null HT /\
   free_calls (snd (snd self)) = [CallFree KComm duplicate_comm]) /\
  (fst onto = Return tt /\
   fst (snd onto) 1%nat = duplicate_comm /\
   fst (snd onto) 0%nat = null HT /\
   free_calls (snd (snd onto)) = []).
Proof.
  intros HT m self onto.
  assert (Rs : self = (Return tt, (fst (snd self), snd (snd self)))) by reflexivity.
  assert (Ro : onto = (Return tt, (fst (snd onto), snd (snd onto)))) by reflexivity.
  destruct (UniqueHandle_move_transfers mpi_rank0_of_2 false HT 0 0 m _ initial_world _ Rs)
    as (Fs & _ & _ & Self & _).
  destruct (UniqueHandle_move_transfers mpi_rank0_of_2 false HT 1 0 m _ initial_world _ Ro)
    as (Fo & _ & Onto & _ & _).
  destruct (Self eq_refl) as (Ns & _).
  destruct Onto as (To & No & _); [discriminate|].
  split.
  - split; [reflexivity|]. split; [exact (Ns eq_refl)|exact Fs].
  - split; [reflexivity|]. split; [exact To|]. split; [exact (No eq_refl)|exact Fo].
Defined.

(** X3, instance: [free()] on a null reference to a communicator. *)
Lemma Handle_free_frees_witness :
  let HT := CommHandleTraits mpi_rank0_of_2 in
  let this : Handle HT := mkHandle (null HT) in
  Handle_is_null this = true /\
  Handle_free mpi_rank0_of_2 false this initial_world = (Return this, initial_world).
Proof.
  intros HT this. split; [reflexivity|].
  now apply (Handle_free_frees mpi_rank0_of_2 false HT this initial_world).
Defined.

(** X5, instance: [product()] move-assigned onto [sum()]. *)
Lemma Op_move_assign_onto_builtin_witness :
  let OT := accumulate_op_traits 8 in
  let this : Op mpi_rank0_of_2 OT := mkUniqueHandle (MPI_OP mpi_rank0_of_2 SUM) in
  let other : Op mpi_rank0_of_2 OT := mkUniqueHandle (MPI_OP mpi_rank0_of_2 PROD) in
  Op_move_assign mpi_rank0_of_2 false OT this other initial_world =
    (AssertFailed "!HandleTraits::is_system_handle(handle_)", initial_world) /\
  free_calls (snd (Op_move_assign mpi_rank0_of_2 true OT this other initial_world)) =
    [CallFree KOp (MPI_OP mpi_rank0_of_2 SUM)].
Proof.
  intros OT this other.
  destruct (Op_move_assign_onto_builtin mpi_rank0_of_2 false OT this other
              initial_world eq_refl eq_refl) as [A _].
  destruct (Op_move_assign_onto_builtin mpi_rank0_of_2 true OT this other
              initial_world eq_refl eq_refl) as [_ F].
  split; [now apply A|now apply F].
Defined.

(** X6, instance: [double]. *)
Lemma operator_acceptance_table_witness :
  is_datatype_v 8 TDouble = true /\
  accepts (comparison_op_traits 8) TDouble = true /\
  accepts (accumulate_op_traits 8) TDouble = true /\
  accepts (logical_op_traits 8) TDouble = false /\
  accepts (bitwise_op_traits 8) TDouble = false.
Proof.
  destruct (operator_acceptance_table 8 TDouble eq_refl) as (_ & C & A & L & B & _).
  split; [reflexivity|]. split; [exact C|]. split; [exact A|]. split; [exact L|exact B].
Defined.

(** X7, instance: a pending request, waited on or freed, then destroyed. *)
Lemma released_request_destructs_cleanly_witness :
  let this : UniqueRequest mpi_rank0_of_2 := mkUniqueHandle pending_request in
  MPI_Wait mpi_rank0_of_2 pending_request = (0, mpi_null mpi_rank0_of_2 KRequest) /\
  (completed <- UniqueRequest_wait mpi_rank0_of_2 this ;;
   UniqueRequest_dtor mpi_rank0_of_2 false completed) initial_world =
    (Return tt, mkWorld [] [] [CallWait pending_request]) /\
  (freed <- UniqueRequest_free mpi_rank0_of_2 this ;;
   UniqueRequest_dtor mpi_rank0_of_2 false freed) initial_world =
    (Return tt, mkWorld [] [] [CallFree KRequest pending_request]).
Proof.
  intros this.
  destruct (released_request_destructs_cleanly mpi_rank0_of_2 false this initial_world)
    as (W & F & _).
  split; [reflexivity|]. split.
  - exact (W _ eq_refl).
  - exact (F eq_refl eq_refl).
Defined.

(** X8, instance: a test of a request that is still pending. *)
Lemma test_with_status_writes_on_completion_witness :
  let this : UniqueRequest mpi_rank0_of_2 := mkUniqueHandle pending_request in
  MPI_Test more_pending pending_request = (0, pending_request, 0, empty_status) /\
  UniqueRequest_test_with_status mpi_rank0_of_2 more_pending this completed_status
    ([], initial_world) =
    (Return (false, this, completed_status), ([CallTest pending_request], initial_world)).
Proof.
  intros this. split; [reflexivity|].
  apply (test_with_status_writes_on_completion mpi_rank0_of_2 more_pending this
           completed_status [] initial_world pending_request 0 empty_status eq_refl).
Defined.

(** X9, instance: a probe that finds no message. *)
Lemma immediate_probe_writes_on_match_witness :
  let comm := MPI_COMM_WORLD mpi_rank0_of_2 in
  MPI_Iprobe more_pending 1 7 comm = (0, 0, empty_status) /\
  immediate_probe mpi_rank0_of_2 more_pending comm 1 7 completed_status
    ([], initial_world) =
    (Return (false, completed_status), ([CallIprobe 1 7 comm], initial_world)).
Proof.
  intros comm. split; [reflexivity|].
  destruct (immediate_probe_writes_on_match mpi_rank0_of_2 more_pending comm 1 7
              completed_status [] initial_world) as (P & _).
  exact (P 0 empty_status eq_refl).
Defined.

(** X10, instance: a send that is dropped at once. *)
Lemma immediate_send_must_be_completed_witness :
  let comm := MPI_COMM_WORLD mpi_rank0_of_2 in
  1 <= INT_MAX /\
  pending_request <> mpi_null mpi_rank0_of_2 KRequest /\
  (r <- immediate_send mpi_rank0_of_2 false more_2 comm 1 1 0 ;;
   lift_more (UniqueRequest_dtor mpi_rank0_of_2 false r)) ([], initial_world) =
    (Exited EXIT_FAILURE,
     ([CallIsend 1 1 0 comm],
      mkWorld [Str requests_must_be_completed; Endl] [] [])).
Proof.
  intros comm.
  assert (F : 1 <= INT_MAX) by (vm_compute; discriminate).
  assert (L : pending_request <> mpi_null mpi_rank0_of_2 KRequest) by discriminate.
  split; [exact F|]. split; [exact L|].
  destruct (immediate_send_must_be_completed mpi_rank0_of_2 false more_2 comm 1 1 0
              pending_request [] initial_world F eq_refl L) as (_ & D & _).
  exact D.
Defined.

(** X11, instance: a count of 2^31. *)
Lemma point_to_point_count_guard_witness :
  let comm := MPI_COMM_WORLD mpi_rank0_of_2 in
  INT_MAX < 2147483648 /\
  recv mpi_rank0_of_2 more_2 comm 2147483648 1 0 ([], initial_world) =
    (Throw (StdOutOfRange "receive array is too large"), ([], initial_world)).
Proof.
  intros comm.
  assert (B : INT_MAX < 2147483648) by reflexivity.
  split; [exact B|].
  now destruct (point_to_point_count_guard mpi_rank0_of_2 false more_2 comm 2147483648
                  1 0 [] initial_world B) as (_ & _ & _ & R).
Defined.

(** X12, instance. *)
Lemma wait_some_returns_a_count_witness :
  let b := mkWaitBuffers three_requests [0; 0; 0] [] in
  fst (wait_some mpi_rank0_of_2 false (b, initial_world)) = Return 2 /\
  2 <> MPI_UNDEFINED mpi_rank0_of_2.
Proof.
  intros b.
  assert (R : wait_some mpi_rank0_of_2 false (b, initial_world) =
              (Return 2, snd (wait_some mpi_rank0_of_2 false (b, initial_world))))
    by reflexivity.
  split; [reflexivity|].
  now destruct (wait_some_returns_a_count mpi_rank0_of_2 false b initial_world 2 _ R)
    as (_ & U & _).
Defined.

(** X13, instance: the vector holds [7] before the call. *)
Lemma wait_some_into_keeps_prefix_witness :
  span_length [7] + span_length three_requests <= SIZE_MAX /\
  firstn 1
    (wb_indices
       (fst (snd (wait_some_into mpi_rank0_of_2
                    (mkWaitBuffers three_requests [7] [], initial_world))))) = [7].
Proof.
  assert (S : span_length [7] + span_length three_requests <= SIZE_MAX)
    by (vm_compute; discriminate).
  split; [exact S|].
  apply (wait_some_into_keeps_prefix mpi_rank0_of_2 three_requests [7] []
           initial_world S).
  right. split; vm_compute; discriminate.
Defined.

(** X14, instance: two pending requests. *)
Lemma wait_all_statuses_has_room_witness :
  let b := mkWaitBuffers [pending_request; pending_request] [] [] in
  wait_all_statuses mpi_rank0_of_2 more_2 (b, initial_world) =
    (Return [completed_status; completed_status],
     (mkWaitBuffers [example_null KRequest; example_null KRequest] [] [],
      mkWorld [] [] [CallWaitall [pending_request; pending_request]])).
Proof.
  intros b.
  destruct (wait_all_statuses_has_room mpi_rank0_of_2 more_2 b initial_world)
    as (_ & _ & R).
  apply (R [example_null KRequest; example_null KRequest]
           [completed_status; completed_status]);
    [vm_compute; discriminate|reflexivity|reflexivity|reflexivity].
Defined.

(** X15, instance: two requests that are both null. *)
Lemma wait_any_passes_undefined_through_witness :
  let b := mkWaitBuffers [example_null KRequest; example_null KRequest] [0; 0] [] in
  wait_any mpi_rank0_of_2 more_2 ([], (b, initial_world)) =
    (Return (MPI_UNDEFINED mpi_rank0_of_2),
     ([CallWaitany (wb_requests b)], (b, initial_world))) /\
  fst (wait_some mpi_rank0_of_2 false (b, initial_world)) =
    Throw (StdLogicError
      "mpi::wait_some should only be called when there are still completed requests").
Proof.
  intros b.
  assert (F : span_length (wb_requests b) <= INT_MAX) by (vm_compute; discriminate).
  destruct (wait_any_passes_undefined_through mpi_rank0_of_2 more_2 b [] initial_world
              (MPI_UNDEFINED mpi_rank0_of_2) empty_status F eq_refl) as (A & _ & S).
  split; [exact A|].
  rewrite S; [reflexivity|vm_compute; discriminate|reflexivity].
Defined.

(** X16, instance: a buffer of three elements. *)
Lemma DynBuffer_of_Buffer_keeps_size_witness :
  let buffer := mkSpan send_addr 3 MPI_INT32_T in
  0 <= span_size buffer /\
  DynBuffer_of_Buffer buffer initial_world =
    (Return (mkDynBuffer send_addr 3 MPI_INT32_T), initial_world) /\
  DynBuffer_size (mkDynBuffer send_addr 3 MPI_INT32_T) = 3.
Proof.
  intros buffer.
  assert (P : 0 <= span_size buffer) by (vm_compute; discriminate).
  split; [exact P|].
  destruct (DynBuffer_of_Buffer_keeps_size buffer initial_world P) as (R & _).
  destruct R as (d & E & S & _); [vm_compute; discriminate|].
  split; [reflexivity|reflexivity].
Defined.

(** X19, instance: the root and the other rank. *)
Lemma reduce_without_recv_witness :
  let comm := MPI_COMM_WORLD mpi_rank0_of_2 in
  let sum := MPI_OP mpi_rank0_of_2 SUM in
  aborts_communicator
    (reduce_value mpi_rank0_of_2 comm sum 0 send_addr initial_world)
    comm EXIT_FAILURE /\
  reduce_value mpi_rank1_of_2 comm sum 0 send_addr initial_world =
    (Return tt, mkWorld [] [] [CallCommRank comm; CallReduce 1 sum 0 comm]).
Proof.
  intros comm sum.
  destruct (reduce_without_recv mpi_rank0_of_2 comm sum 0 0 send_addr initial_world
              eq_refl) as (A & _).
  destruct (reduce_without_recv mpi_rank1_of_2 comm sum 0 1 send_addr initial_world
              eq_refl) as (_ & G).
  split.
  - destruct (A eq_refl 1) as (_ & E). unfold aborts_communicator. now rewrite E.
  - destruct G as (E & _); [discriminate|]. now rewrite E.
Defined.

(** X20, instance: the sum of one value over two processes. *)
Lemma reduce_into_root_value_at_root_witness :
  let comm := MPI_COMM_WORLD mpi_rank0_of_2 in
  let sum := MPI_OP mpi_rank0_of_2 SUM in
  recv_addr <> nullptr /\
  fst (reduce_into_root_value mpi_rank0_of_2 more_2 comm sum 0 send_addr recv_addr
         initial_world) = Return 2.
Proof.
  intros comm sum.
  assert (N : recv_addr <> nullptr) by discriminate.
  split; [exact N|].
  now rewrite (reduce_into_root_value_at_root mpi_rank0_of_2 more_2 comm sum 0
                 send_addr recv_addr 2 [] initial_world eq_refl N eq_refl eq_refl).
Defined.

(** X21, instance: a send count of 2^31 with a receive count of one. *)
Lemma all_reduce_checks_witness :
  let comm := MPI_COMM_WORLD mpi_rank0_of_2 in
  let sum := MPI_OP mpi_rank0_of_2 SUM in
  INT_MAX < 2147483648 /\
  all_reduce mpi_rank0_of_2 comm sum send_addr 2147483648 recv_addr 1 initial_world =
    (Throw (StdOutOfRange "send array is too large"), initial_world) /\
  all_reduce mpi_rank0_of_2 comm sum send_addr 2 recv_addr 2 initial_world =
    (Return tt, mkWorld [] [] [CallAllreduce 2 sum comm]).
Proof.
  intros comm sum.
  assert (B : INT_MAX < 2147483648) by reflexivity.
  split; [exact B|].
  destruct (all_reduce_checks mpi_rank0_of_2 comm sum send_addr 2147483648 recv_addr 1
              initial_world) as (T & _).
  destruct (all_reduce_checks mpi_rank0_of_2 comm sum send_addr 2 recv_addr 2
              initial_world) as (_ & G & _).
  split; [exact (T B)|].
  rewrite G; [reflexivity|vm_compute; discriminate|vm_compute; discriminate].
Defined.

(** X22, instance: a receive span of one element on two processes. *)
Lemma all_gather_checks_room_witness :
  let comm := MPI_COMM_WORLD mpi_rank0_of_2 in
  aborts_communicator
    (all_gather mpi_rank0_of_2 more_2 comm send_addr (mkSpan recv_addr 1 MPI_INT32_T)
       ([], initial_world)) comm EXIT_FAILURE /\
  fst (all_gather_vector mpi_rank0_of_2 more_2 comm send_addr recv_addr MPI_INT32_T 4
         ([], initial_world)) = Return [0; 1].
Proof.
  intros comm.
  assert (N : 0 <= 2 <= INT_MAX) by (split; vm_compute; discriminate).
  destruct (all_gather_checks_room mpi_rank0_of_2 more_2 comm send_addr 2 0
              (mkSpan recv_addr 1 MPI_INT32_T) [] initial_world eq_refl eq_refl N)
    as (A & _ & V).
  split.
  - unfold aborts_communicator. rewrite A; [reflexivity|reflexivity].
  - rewrite (V recv_addr MPI_INT32_T 4 [0; 1]);
      [reflexivity|vm_compute; discriminate|reflexivity|vm_compute; discriminate].
Defined.

(** X23, instance: a send buffer of one element on two processes. *)
Lemma all_to_all_checks_room_witness :
  let comm := MPI_COMM_WORLD mpi_rank0_of_2 in
  aborts_communicator
    (all_to_all mpi_rank0_of_2 more_2 comm
       (mkDynBuffer send_addr 1 MPI_INT32_T) (mkDynBuffer recv_addr 2 MPI_INT32_T)
       ([], initial_world)) comm EXIT_FAILURE /\
  all_to_all mpi_rank0_of_2 more_2 comm
    (mkDynBuffer send_addr 2 MPI_INT32_T) (mkDynBuffer recv_addr 2 MPI_INT32_T)
    ([], initial_world) =
    (Return tt,
     ([CallAlltoall comm], mkWorld [] [] [CallCommSize comm; CallCommSize comm])).
Proof.
  intros comm.
  assert (N : 0 <= 2 <= INT_MAX) by (split; vm_compute; discriminate).
  destruct (all_to_all_checks_room mpi_rank0_of_2 more_2 comm 2 0
              (mkDynBuffer send_addr 1 MPI_INT32_T) (mkDynBuffer recv_addr 2 MPI_INT32_T)
              [] initial_world eq_refl eq_refl N) as (A & _).
  destruct (all_to_all_checks_room mpi_rank0_of_2 more_2 comm 2 0
              (mkDynBuffer send_addr 2 MPI_INT32_T) (mkDynBuffer recv_addr 2 MPI_INT32_T)
              [] initial_world eq_refl eq_refl N) as (_ & _ & G).
  split.
  - unfold aborts_communicator. rewrite A; [reflexivity|reflexivity].
  - rewrite G; [reflexivity|vm_compute; discriminate|vm_compute; discriminate].
Defined.

(** X24, instance: the ranks 0 to 1 of the group of the world. *)
Lemma range_from_to_is_one_unit_range_witness :
  range_incl_from_to mpi_rank0_of_2 false more_2 world_group 0 1 ([], initial_world) =
    (Return (mkUniqueHandle sub_group),
     ([CallGroupRangeIncl world_group [mkGroupRange 0 1 1]], initial_world)).
Proof.
  destruct (range_from_to_is_one_unit_range mpi_rank0_of_2 false more_2 world_group 0 1
              [] initial_world) as (_ & I & _).
  exact (I sub_group eq_refl).
Defined.

(** X25, instance: a duplicate of the world, and a creation that leaves
    this process out. *)
Lemma derived_communicators_are_owned_witness :
  let comm := MPI_COMM_WORLD mpi_rank0_of_2 in
  dup mpi_rank0_of_2 false more_2 comm ([], initial_world) =
    (Return (mkUniqueHandle duplicate_comm), ([CallCommDup comm], initial_world)) /\
  free_calls
    (snd (UniqueHandle_dtor mpi_rank0_of_2 false
            (mkUniqueHandle duplicate_comm : UniqueComm mpi_rank0_of_2) initial_world)) =
    [CallFree KComm duplicate_comm] /\
  create mpi_rank0_of_2 false more_excluded comm sub_group ([], initial_world) =
    (Return (mkUniqueHandle (mpi_null mpi_rank0_of_2 KComm)),
     ([CallCommCreate comm sub_group], initial_world)).
Proof.
  intros comm.
  destruct (derived_communicators_are_owned mpi_rank0_of_2 false more_2 comm sub_group
              duplicate_comm [] initial_world) as (D & _).
  destruct (derived_communicators_are_owned mpi_rank0_of_2 false more_excluded comm
              sub_group duplicate_comm [] initial_world) as (_ & C).
  destruct D as (D1 & _ & D3); [reflexivity|discriminate|reflexivity|].
  destruct C as (C1 & _); [reflexivity|].
  split; [exact D1|]. split; [exact D3|exact C1].
Defined.

(** X26, instance: one value, and a vector of two. *)
Lemma all_reduce_overloads_have_room_witness :
  let comm := MPI_COMM_WORLD mpi_rank0_of_2 in
  let sum := MPI_OP mpi_rank0_of_2 SUM in
  all_reduce_value mpi_rank0_of_2 more_2 comm sum send_addr recv_addr initial_world =
    (Return 2, mkWorld [] [] [CallAllreduce 1 sum comm]) /\
  all_reduce_vector mpi_rank0_of_2 more_2 comm sum send_addr 2 recv_addr 4 initial_world =
    (Return [2; 2], mkWorld [] [] [CallAllreduce 2 sum comm]).
Proof.
  intros comm sum.
  destruct (all_reduce_overloads_have_room mpi_rank0_of_2 more_2 comm sum send_addr
              recv_addr recv_addr 4 initial_world) as (V & W & _).
  split.
  - exact (V 2 [] eq_refl eq_refl).
  - rewrite W; [reflexivity|split; vm_compute; discriminate|vm_compute; discriminate
               |reflexivity|vm_compute; discriminate].
Defined.
